(** * A shallow embedding of the secret-store mutation engine of vault-cli-manager

    The files embedded here are [vault/vault.go] (the [Read]/[Write] client
    wrappers), the version-state verifier and the delete engine (reproduced in
    [docs/upgrade.md]), [Copy]/[Move]/[MoveCopyTree] and the [export] command
    handler.

    Modelling conventions.
    - The backend client ([vaultkv.KV]) is an external collaborator.  It is a
      record of functions [Backend]: read queries (Get, Versions, List,
      MountVersion, MountPath, the tree fetch [ConstructSecrets]) answer from
      the record; every mutation (Set, Delete, Destroy, DestroyAll, and the
      replay of a fetched history) is appended to a trace of events, and its
      outcome is also supplied by the record.  Theorems quantified over every
      [Backend] hold for every backend behaviour.
    - Addresses are manipulated as the result of [ParsePath] (path, key,
      version).  When the Go code passes an already unescaped secret path to a
      function that parses it again, the model passes the record
      [plain path]; this is the identity for paths without [:] and [^].
      [Canonicalize] is likewise taken to be the identity on the paths given.
    - A Go runtime panic (index out of range, explicit [panic]) is the error
      [Panic]. *)

From stdpp Require Import base gmap list strings pretty.
From Stdlib Require Import Ascii String.
Open Scope string_scope.

(** ** Addresses *)

Record addr := mkAddr { a_path : string; a_key : string; a_version : nat }.

Definition plain (p : string) : addr := mkAddr p "" 0.

(** Modelled from the spec: [PathHasKey] (vault/utils.go is not available):
    the address carries a key. *)
Definition PathHasKey (a : addr) : bool := negb (String.eqb (a_key a) "").

(** Modelled from the spec: [PathHasVersion]: the address names a version. *)
Definition PathHasVersion (a : addr) : bool := Nat.ltb 0 (a_version a).

(** Modelled from the spec: the escaping of [:] and [^] inside a segment
    with a backslash. *)
Fixpoint EscapePathSegment (s : string) : string :=
  match s with
  | EmptyString => EmptyString
  | String c r =>
      if Ascii.eqb c ":" || Ascii.eqb c "^"
      then String "\"%char (String c (EscapePathSegment r))
      else String c (EscapePathSegment r)
  end.

(** Modelled from the spec: [EncodePath(path, key, version)], the
    [path[:key][^version]] string form of an address. *)
Definition EncodePath (path key : string) (version : nat) : string :=
  EscapePathSegment path
  ++ (if String.eqb key "" then "" else ":" ++ EscapePathSegment key)
  ++ (if Nat.eqb version 0 then "" else "^" ++ pretty version).

(** ** Errors *)

(** The messages of the [secretNotFound] errors built by the engine. *)
Inductive notfound_reason :=
| NoSecretAt (path : string)          (* NewSecretNotFoundError(path) *)
| IsDeleted (a : addr)                (* "`%s' is deleted" *)
| IsDestroyed (a : addr)              (* "`%s' is destroyed" *)
| NotYetExist (a : addr)              (* "references a version that does not yet exist" *)
| NoLiving (a : addr)                 (* "No living versions for `%s'" *)
| NoLivingOrDeleted (a : addr).       (* "No living or deleted versions for `%s'" *)

Inductive err :=
| SecretNotFound (why : notfound_reason)   (* type secretNotFound *)
| KeyNotFound (path key : string)          (* type keyNotFound *)
| ClientNotFound (path : string)           (* a 404 of the vaultkv client *)
| Failure (msg : string)                   (* fmt.Errorf, opaque backend errors *)
| Wrapped (msg : string) (inner : err)     (* fmt.Errorf("...: %s", err) *)
| Panic (msg : string).                    (* a Go runtime panic *)

(** [IsNotFound]: secretNotFound or keyNotFound. *)
Definition IsNotFound (e : err) : bool :=
  match e with SecretNotFound _ | KeyNotFound _ _ => true | _ => false end.

Definition IsSecretNotFound (e : err) : bool :=
  match e with SecretNotFound _ => true | _ => false end.

Definition IsKeyNotFound (e : err) : bool :=
  match e with KeyNotFound _ _ => true | _ => false end.

(** [vaultkv.IsNotFound]. *)
Definition kvIsNotFound (e : err) : bool :=
  match e with ClientNotFound _ => true | _ => false end.

(** ** Secrets and versions *)

(** A raw value decoded from the backend's JSON: a string, or a structured
    value, kept with its compact JSON encoding. *)
Inductive value := VStr (s : string) | VJson (encoded : string).

(** [json.Marshal] of a structured value (never fails on decoded JSON). *)
Definition marshal (v : value) : string :=
  match v with VStr s => s | VJson e => e end.

(** [Secret] (vault/secret.go is not among the files) is taken as its field
    [data], the map from key to string value that [Read] fills. *)
Abbreviation secret := (gmap string string).

Record KVVersion := mkKVVersion {
  kv_version : nat; kv_deleted : bool; kv_destroyed : bool }.

Inductive SecretState := SecretStateAlive | SecretStateDeleted | SecretStateDestroyed.

Record SecretVersion := mkSecretVersion {
  sv_number : nat; sv_state : SecretState; sv_data : secret }.

Record SecretEntry := mkSecretEntry {
  se_path : string; se_versions : list SecretVersion }.

(** [Secrets.Paths()]. *)
Definition Paths (t : list SecretEntry) : list string := map se_path t.

Record TreeOpts := mkTreeOpts {
  FetchKeys : bool; GetOnly : bool; FetchAllVersions : bool;
  GetDeletedVersions : bool; AllowDeletedSecrets : bool; SkipVersionInfo : bool }.

(** ** The backend *)

(** The mutation calls the engine issues. [CReplay] is the replay of a
    fetched entry onto a destination ([SecretEntry.Copy] in vault/tree.go,
    not available), with its [Clear] and [Pad] options. *)
Inductive Call :=
| CSet (path : string) (data : secret)
| CDelete (path : string) (versions : list nat)     (* Delete with V1Destroy *)
| CDestroy (path : string) (versions : list nat)
| CDestroyAll (path : string)
| CUndelete (path : string) (versions : list nat)
| CReplay (e : SecretEntry) (dst : string) (clear pad : bool).

(** Observable events: mutation calls and advisories printed on stderr. *)
Inductive event :=
| EvCall (c : Call)
| EvWarn (target : string)
| EvWarnPaths (root : string) (paths : list string).

Record Backend := mkBackend {
  kv_get : string -> nat -> err + gmap string value;     (* client.Get *)
  kv_versions : string -> err + list KVVersion;          (* client.Versions *)
  kv_mount_version : string -> err + nat;                (* client.MountVersion *)
  kv_list : addr -> err + list string;                   (* client.List *)
  kv_mount_path : string -> err + string;                (* client.MountPath *)
  kv_construct : string -> TreeOpts -> err + list SecretEntry;  (* ConstructSecrets *)
  kv_call : Call -> option err                           (* outcome of a mutation *)
}.

(** ** The engine's monad: state (the event trace) and errors *)

Definition M (A : Type) : Type := list event -> list event * (err + A).

Definition ret {A} (x : A) : M A := fun tr => (tr, inr x).
Definition fail {A} (e : err) : M A := fun tr => (tr, inl e).
Definition bindM {A B} (m : M A) (k : A -> M B) : M B :=
  fun tr => match m tr with
            | (tr', inl e) => (tr', inl e)
            | (tr', inr x) => k x tr'
            end.
(** Run a step and observe its error instead of propagating it. *)
Definition attempt {A} (m : M A) : M (err + A) :=
  fun tr => let '(tr', r) := m tr in (tr', inr r).
Definition lift {A} (r : err + A) : M A :=
  fun tr => (tr, r).
Definition emit (ev : event) : M unit := fun tr => (app tr [ev], inr tt).

Notation "'do' x <- m ; k" := (bindM m (fun x => k))
  (at level 60, x name, m at next level, right associativity).
Notation "'do_' m ; k" := (bindM m (fun _ => k))
  (at level 60, m at next level, right associativity).

(** Issue a mutation call: it is recorded, then its outcome is returned. *)
Definition issue (b : Backend) (c : Call) : M unit :=
  fun tr => (app tr [EvCall c],
             match kv_call b c with Some e => inl e | None => inr tt end).

Definition lastM {A} (l : list A) : M A :=
  match last l with Some x => ret x | None => fail (Panic "index out of range") end.

Definition nthM {A} (i : nat) (l : list A) : M A :=
  match l !! i with Some x => ret x | None => fail (Panic "index out of range") end.

(** Go's [x + y] on the 64-bit [uint]: modulo 2^64. *)
Definition uintAdd (x y : nat) : nat :=
  N.to_nat ((N.of_nat x + N.of_nat y) mod 2 ^ 64)%N.

(** Go's [x - y] on the 64-bit [uint]: modulo 2^64. *)
Definition uintSub (x y : nat) : Z :=
  ((Z.of_nat x - Z.of_nat y) mod 2 ^ 64)%Z.

(** Go's [int(x)] of a 64-bit [uint] [x]: values from 2^63 are negative. *)
Definition uintToInt (x : Z) : Z :=
  if Z.ltb x (2 ^ 63) then x else (x - 2 ^ 64)%Z.

(** [Secret.Empty()]. *)
Definition Empty (s : secret) : bool := bool_decide (s = ∅).

(** ** The client wrappers and the delete engine *)

Inductive VerifyState := verifyStateAlive | verifyStateAliveOrDeleted.

Record verifyOpts := mkVerifyOpts { AnyVersion : bool; State : VerifyState }.

Record DeleteOpts := mkDeleteOpts { Destroy : bool; All : bool }.

Definition noDeleteOpts : DeleteOpts := mkDeleteOpts false false.

Definition isAlive (st : VerifyState) : bool :=
  match st with verifyStateAlive => true | verifyStateAliveOrDeleted => false end.

(** The loop of [deleteEntireSecret] advancing [verIdx] while
    [versions[verIdx] < V]; it runs at most [length versions] times. *)
Fixpoint advance (fuel : nat) (versions : list nat) (verIdx V : nat) : nat :=
  match fuel with
  | 0 => verIdx
  | S f =>
      match versions !! verIdx with
      | Some x => if Nat.ltb x V then advance f versions (S verIdx) V else verIdx
      | None => verIdx
      end
  end.

(** The [shouldNuke] loop of [deleteEntireSecret]. *)
Fixpoint nukeLoop (allVersions : list KVVersion) (versions : list nat) (verIdx : nat)
  : bool :=
  match allVersions with
  | [] => true
  | av :: rest =>
      let verIdx' := advance (Datatypes.length versions) versions verIdx (kv_version av) in
      if negb (kv_destroyed av) &&
         match versions !! verIdx' with
         | None => true
         | Some x => negb (Nat.eqb x (kv_version av))
         end
      then false
      else nukeLoop rest versions verIdx'
  end.

Definition shouldNuke (allVersions : list KVVersion) (versions : list nat) : bool :=
  nukeLoop allVersions versions 0.

Section Engine.
Variable b : Backend.

(** [Vault.Read]. *)
Definition Read (a : addr) : M secret :=
  let path := a_path a in
  let key := a_key a in
  match kv_get b path (a_version a) with
  | inl e => fail (if kvIsNotFound e then SecretNotFound (NoSecretAt path) else e)
  | inr raw =>
      do raw' <- (if String.eqb key "" then ret raw
                  else match raw !! key with
                       | None => fail (KeyNotFound path key)
                       | Some val => ret {[key := val]}
                       end);
      ret (marshal <$>
             filter (fun kv : string * value =>
                       ((negb (String.eqb key "") && String.eqb kv.1 key)
                        || String.eqb key "") = true) raw')
  end.

(** [Vault.List]. *)
Definition List (a : addr) : M (list string) :=
  match kv_list b a with
  | inl e => fail (if kvIsNotFound e then SecretNotFound (NoSecretAt (a_path a)) else e)
  | inr l => ret l
  end.

(** [Vault.Versions]. *)
Definition Versions (path : string) : M (list KVVersion) :=
  match kv_versions b path with
  | inl e => fail (if kvIsNotFound e then SecretNotFound (NoSecretAt path) else e)
  | inr l => ret l
  end.

(** [Vault.errIfFolder]: fails with the folder error when the listing
    succeeds, passes other errors through, succeeds on a not-found. *)
Definition errIfFolder (a : addr) : M unit :=
  do r <- attempt (List a);
  match r with
  | inr _ => fail (Failure "points to a folder, not a secret")
  | inl e => if negb (IsNotFound e) then fail e else ret tt
  end.

(** [Vault.verifySecretExists]. *)
Definition verifySecretExists (a : addr) : M unit :=
  do r <- attempt (Read a);
  match r with
  | inr _ => ret tt
  | inl e => if IsNotFound e then (do_ errIfFolder a; fail e) else fail e
  end.

(** [Vault.verifySecretState]. *)
Definition verifySecretState (a : addr) (opts : verifyOpts) : M unit :=
  let secret := a_path a in
  let version := a_version a in
  let deletedErr := SecretNotFound (IsDeleted a) in
  let destroyedErr := SecretNotFound (IsDestroyed a) in
  do mountV <- lift (kv_mount_version b secret);
  match mountV with
  | 1 => verifySecretExists a
  | 2 =>
      do r <- attempt (Versions secret);
      match r with
      | inl e =>
          if IsNotFound e
          then (do_ errIfFolder a; fail (SecretNotFound (NoSecretAt secret)))
          else fail e
      | inr versions =>
          if negb (AnyVersion opts) then
            do v <- (if Nat.eqb version 0 then lastM versions
                     else do first <- nthM 0 versions;
                          if Nat.ltb version (kv_version first) then fail destroyedErr
                          else do newest <- lastM versions;
                          if Nat.ltb (kv_version newest) version
                          then fail (SecretNotFound (NotYetExist a))
                          else nthM (version - kv_version first) versions);
            if kv_destroyed v then fail destroyedErr
            else if isAlive (State opts) && kv_deleted v then fail deletedErr
            else ret tt
          else
            if existsb (fun v => negb (kv_deleted v || kv_destroyed v)
                                 || (negb (isAlive (State opts)) && negb (kv_destroyed v)))
                       versions
            then ret tt
            else if isAlive (State opts) then fail (SecretNotFound (NoLiving a))
            else fail (SecretNotFound (NoLivingOrDeleted a))
      end
  | _ => fail (Failure "Unsupported mount version")
  end.

(** [Vault.canSemanticallyDelete]. *)
Definition canSemanticallyDelete (a : addr) : M unit :=
  if String.eqb (a_key a) "" || Nat.eqb (a_version a) 0 then ret tt
  else
    do versions <- Versions (a_path a);
    do newest <- lastM versions;
    if Nat.eqb (kv_version newest) (a_version a) then ret tt
    else
      do s <- Read a;
      if negb (Nat.eqb (size s) 1) || negb (bool_decide (is_Some (s !! a_key a)))
      then fail (Failure "Cannot delete specific non-isolated key of non-latest version")
      else ret tt.

(** [Vault.deleteEntireSecret]. *)
Definition deleteEntireSecret (a : addr) (destroy all : bool) : M unit :=
  let secret := a_path a in
  let version := a_version a in
  if destroy && all then issue b (CDestroyAll secret)
  else
    let versions := if negb (Nat.eqb version 0) then [version] else [] in
    if destroy then
      do allVersions <- Versions secret;
      do versions <- (match versions with
                      | [] => do newest <- lastM allVersions; ret [kv_version newest]
                      | _ => ret versions
                      end);
      if shouldNuke allVersions versions then issue b (CDestroyAll secret)
      else issue b (CDestroy secret versions)
    else
      do versions <- (if all then do allVersions <- Versions secret;
                                  ret (map kv_version allVersions)
                      else ret versions);
      issue b (CDelete secret versions).

(** [Vault.deleteSpecificKey], over the [Write] it calls. [Secret.Delete]
    (vault/secret.go, not available) is modelled from the spec: it removes
    the key and reports whether it was there. *)
Definition deleteSpecificKey_with (Write : addr -> secret -> M unit) (a : addr)
  : M unit :=
  let secretPath := a_path a in
  let key := a_key a in
  do s <- Read (plain secretPath);
  match s !! key with
  | None => fail (KeyNotFound secretPath key)
  | Some _ =>
      let s' := delete key s in
      if Empty s' then deleteEntireSecret (plain secretPath) false false
      else Write (plain secretPath) s'
  end.

(** [Vault.Delete], over the [Write] used by [deleteSpecificKey]. *)
Definition Delete_with (Write : addr -> secret -> M unit) (a : addr) (opts : DeleteOpts)
  : M unit :=
  let reqState := if Destroy opts then verifyStateAliveOrDeleted else verifyStateAlive in
  do_ verifySecretState a (mkVerifyOpts (All opts) reqState);
  do_ canSemanticallyDelete a;
  if negb (PathHasKey a) then deleteEntireSecret a (Destroy opts) (All opts)
  else deleteSpecificKey_with Write a.

(** [Vault.deleteIfPresent], over the [Delete] it calls. *)
Definition deleteIfPresent_with (Delete : addr -> DeleteOpts -> M unit) (a : addr)
  (opts : DeleteOpts) : M unit :=
  do r <- attempt (Read (plain (a_path a)));
  match r with
  | inl e => if IsSecretNotFound e then ret tt else fail e
  | inr _ =>
      do r2 <- attempt (Delete a opts);
      match r2 with
      | inl e => if IsKeyNotFound e then ret tt else fail e
      | inr _ => ret tt
      end
  end.

(** [Vault.Write], over the [Delete] used by [deleteIfPresent]. *)
Definition Write_with (Delete : addr -> DeleteOpts -> M unit) (a : addr) (s : secret)
  : M unit :=
  let path := a_path a in
  if negb (String.eqb (a_key a) "")
  then fail (Failure "cannot write to paths in /path:key notation")
  else if negb (Nat.eqb (a_version a) 0)
  then fail (Failure "cannot write to paths in /path^version notation")
  else if Empty s then deleteIfPresent_with Delete (plain path) noDeleteOpts
  else
    do r <- attempt (issue b (CSet path s));
    match r with
    | inl e => fail (if kvIsNotFound e then SecretNotFound (NoSecretAt path) else e)
    | inr _ => ret tt
    end.

(** [Write] and [Delete] call each other ([Write] of an empty secret deletes
    it, and [deleteSpecificKey] writes back the remaining keys), but only
    with a non-empty secret in the second direction, and [Write] of a
    non-empty secret never deletes.  The knot is therefore tied by unfolding
    once: the innermost [Delete] below is never reached
    (see [Write_with_nonempty] and [Delete_unfold]). *)
Definition unreachableDelete : addr -> DeleteOpts -> M unit :=
  fun _ _ => fail (Panic "unreachable").

Definition Delete : addr -> DeleteOpts -> M unit :=
  Delete_with (Write_with unreachableDelete).

Definition Write : addr -> secret -> M unit := Write_with Delete.

(** ** Copy, Move, MoveCopyTree *)

Record MoveCopyOpts := mkMoveCopyOpts {
  SkipIfExists : bool; Quiet : bool; Deep : bool; DeletedVersions : bool }.

Fixpoint forM_ {A} (l : list A) (f : A -> M unit) : M unit :=
  match l with [] => ret tt | x :: r => do_ f x; forM_ r f end.

(** The loop of [Copy] narrowing a fetched entry to one version number. *)
Definition filterVersion (n : nat) (e : SecretEntry) : SecretEntry :=
  match find (fun v => Nat.eqb (sv_number v) n) (se_versions e) with
  | Some v => mkSecretEntry (se_path e) [v]
  | None => e
  end.

(** [Vault.Copy].  Modelled from the spec: the replay of the fetched entry
    onto the destination ([SecretEntry.Copy], vault/tree.go) is the single
    recorded mutation [CReplay]. *)
Definition Copy (src dst : addr) (opts : MoveCopyOpts) : M unit :=
  if DeletedVersions opts && negb (Deep opts)
  then fail (Panic "Gave DeletedVersions and not Deep")
  else
  let reqState := if DeletedVersions opts then verifyStateAliveOrDeleted
                  else verifyStateAlive in
  do_ verifySecretState src (mkVerifyOpts (Deep opts) reqState);
  do stop <- (if SkipIfExists opts then
                do r <- attempt (Read dst);
                match r with
                | inr _ =>
                    do_ (if Quiet opts then ret tt else emit (EvWarn (a_path dst)));
                    ret true
                | inl e => if negb (IsNotFound e) then fail e else ret false
                end
              else ret false);
  if stop then ret tt
  else
  let srcPath := a_path src in
  let srcKey := a_key src in
  let srcVersion := a_version src in
  let dstPath := a_path dst in
  let dstKey := a_key dst in
  if negb (Nat.eqb (a_version dst) 0)
  then fail (Failure "Copying a secret to a specific destination version is not supported")
  else if Deep opts && negb (Nat.eqb srcVersion 0)
  then fail (Failure "Performing a deep copy of a specified version is not supported")
  else
  do toWrite <-
    (if negb (String.eqb srcKey "") then
       if Deep opts then fail (Failure "Cannot take deep copy of a specific key")
       else
         do srcSecret <- Read src;
         match srcSecret !! srcKey with
         | None => fail (KeyNotFound srcPath srcKey)
         | Some val =>
             let dstKey' := if String.eqb dstKey "" then srcKey else dstKey in
             do r <- attempt (Read (plain dstPath));
             do dstOrig <- (match r with
                            | inr s => ret s
                            | inl e => if IsSecretNotFound e then ret ∅ else fail e
                            end);
             ret [<[dstKey' := val]> dstOrig]
         end
     else
       if negb (String.eqb dstKey "")
       then fail (Failure "Cannot move full secret into specific key")
       else
         do t <- lift (kv_construct b srcPath
                         (mkTreeOpts true true (Deep opts || negb (Nat.eqb srcVersion 0))
                            (Deep opts && DeletedVersions opts)
                            (Deep opts || negb (Nat.eqb srcVersion 0)) false));
         match t with
         | [] => fail (SecretNotFound (NoSecretAt srcPath))
         | t0 :: _ =>
             let t0' := if Nat.eqb srcVersion 0 then t0 else filterVersion srcVersion t0 in
             do_ issue b (CReplay t0' dstPath (Deep opts) (Deep opts));
             ret []
         end);
  forM_ toWrite (fun w => Write (plain dstPath) w).

(** [Vault.Move].  [DestroyAll] is given the raw [oldpath], the string
    form of the source address. *)
Definition Move (src dst : addr) (opts : MoveCopyOpts) : M unit :=
  do r <- attempt (canSemanticallyDelete src);
  match r with
  | inl e => fail (Wrapped "Can't move: Did you mean cp?" e)
  | inr _ =>
      do_ Copy src dst opts;
      if Deep opts && DeletedVersions opts then
        do _ <- attempt (issue b (CDestroyAll (EncodePath (a_path src) (a_key src)
                                                          (a_version src))));
        ret tt
      else Delete src noDeleteOpts
  end.

(** [strings.Replace(s, old, new, 1)]: replace the first occurrence. *)
Fixpoint replaceFirst (old new s : string) {struct s} : string :=
  match s with
  | EmptyString => if String.prefix old s then new else s
  | String c r =>
      if String.prefix old s
      then new ++ substring (String.length old) (String.length s) s
      else String c (replaceFirst old new r)
  end.

(** [Vault.MoveCopyTree], over the per-leaf operation [f] ([Copy] or [Move]).
    A destination listing failing with a not-found error is taken as empty. *)
Definition MoveCopyTree (oldRoot newRoot : string)
  (f : string -> string -> MoveCopyOpts -> M unit) (opts : MoveCopyOpts) : M unit :=
  do tree <- lift (kv_construct b oldRoot
                     (mkTreeOpts false false false false (Deep opts) true));
  do stop <- (if SkipIfExists opts then
                do r <- attempt (lift (kv_construct b newRoot
                                         (mkTreeOpts false false false false
                                            (negb (Deep opts)) true)));
                do newTree <- (match r with
                               | inr t => ret t
                               | inl e => if negb (IsNotFound e) then fail e else ret []
                               end);
                let existing := Paths newTree in
                let existingPaths :=
                  filter (fun p => existsb (String.eqb p) existing = true)
                         (map (replaceFirst oldRoot newRoot) (Paths tree)) in
                match existingPaths with
                | [] => ret false
                | _ =>
                    do_ (if Quiet opts then ret tt
                         else emit (EvWarnPaths newRoot existingPaths));
                    ret true
                end
              else ret false);
  if stop then ret tt
  else
    do_ forM_ (Paths tree) (fun p => f p (replaceFirst oldRoot newRoot p) opts);
    do r <- attempt (Read (plain oldRoot));
    match r with
    | inl e => if IsNotFound e then ret tt else f oldRoot newRoot opts
    | inr _ => f oldRoot newRoot opts
    end.

(** [Copy] as the per-leaf operation of [MoveCopyTree]: the leaf paths of a
    listed tree carry no key and no version. *)
Definition CopyPaths (oldpath newpath : string) (opts : MoveCopyOpts) : M unit :=
  Copy (plain oldpath) (plain newpath) opts.

(** The [copy] command handler over its two parsed arguments; [confirm] is
    the answer to the [recursively] prompt (asked only without [--force]).
    The recursive branch is reached only with no key and no version on
    either side, where the raw argument is the secret path. *)
Definition copyCmd (recurse force deep skip quiet confirm : bool) (src dst : addr)
  : M unit :=
  let opts := mkMoveCopyOpts skip quiet deep deep in
  let finish (r : err + unit) : M unit :=
    match r with
    | inl e => if IsNotFound e && force then ret tt else fail e
    | inr _ => ret tt
    end in
  do_ (if PathHasKey src || PathHasKey dst then
         if deep then fail (Failure "Cannot deep copy a specific key")
         else if negb (PathHasKey src) && PathHasKey dst
         then fail (Failure "Cannot move from entire secret into specific key")
         else ret tt
       else ret tt);
  if PathHasVersion dst
  then fail (Failure "Cannot copy to a specific destination version")
  else if recurse && PathHasVersion src
  then fail (Failure "Cannot recursively copy a path with specific version")
  else if recurse && negb (PathHasKey src || PathHasKey dst) then
    if negb force && negb confirm then ret tt
    else do r <- attempt (MoveCopyTree (a_path src) (a_path dst) CopyPaths opts);
         finish r
  else do r <- attempt (Copy src dst opts); finish r.

End Engine.

(** ** The [export] command handler *)

Record exportVersion := mkExportVersion {
  ev_Deleted : bool; ev_Destroyed : bool; ev_Value : gmap string string }.

Record exportSecret := mkExportSecret {
  es_FirstVersion : nat; es_Versions : list exportVersion }.

Record exportFormat := mkExportFormat {
  ExportVersion : nat;
  Data : gmap string exportSecret;
  RequiresVersioning : gmap string bool }.

(** The value of [toExport] once a format has been chosen: still [nil], the
    legacy map [path -> secret], or the one-element versioned envelope. *)
Inductive Exported :=
| ExportNil
| ExportLegacy (m : gmap string secret)
| ExportVersioned (l : list exportFormat).

Section ExportHandler.
Variable b : Backend.
(** [opt.Export.Shallow] and [opt.Export.Deleted]. *)
Variables (shallow deleted : bool).

(** [mount, _ := v.Client().MountPath(p)]: the error is dropped. *)
Definition mountOf (p : string) : string :=
  match kv_mount_path b p with inr m => m | inl _ => "" end.

Definition exportVersionOf (version : SecretVersion) : exportVersion :=
  mkExportVersion
    (match sv_state version with SecretStateDeleted => deleted | _ => false end)
    (match sv_state version with
     | SecretStateDestroyed => true
     | SecretStateDeleted => negb deleted
     | SecretStateAlive => false
     end)
    (sv_data version).

(** The loop of [v1Export]. *)
Fixpoint v1ExportLoop (secrets : list SecretEntry) (export : gmap string secret)
  : err + gmap string secret :=
  match secrets with
  | [] => inr export
  | s :: rest =>
      match se_versions s with
      | [] => inl (Panic "index out of range")
      | v0 :: _ => v1ExportLoop rest (<[se_path s := sv_data v0]> export)
      end
  end.

Definition v1Export (secrets : list SecretEntry) : err + Exported :=
  match v1ExportLoop secrets ∅ with
  | inl e => inl e
  | inr m => inr (ExportLegacy m)
  end.

(** The loop of [v2Export]; [toExport] is reassigned on every iteration. *)
Fixpoint v2ExportLoop (secrets : list SecretEntry) (export : exportFormat)
  (toExport : Exported) : err + Exported :=
  match secrets with
  | [] => inr toExport
  | secret :: rest =>
      let export1 :=
        if Nat.ltb 1 (Datatypes.length (se_versions secret))
        then mkExportFormat (ExportVersion export) (Data export)
               (<[mountOf (se_path secret) := true]> (RequiresVersioning export))
        else export in
      match se_versions secret with
      | [] => inl (Panic "index out of range")
      | v0 :: _ =>
          let first := if Nat.eqb (sv_number v0) 1 || shallow then 0 else sv_number v0 in
          let thisSecret :=
            mkExportSecret first (map exportVersionOf (se_versions secret)) in
          let export2 :=
            mkExportFormat (ExportVersion export1)
              (<[se_path secret := thisSecret]> (Data export1))
              (RequiresVersioning export1) in
          v2ExportLoop rest export2 (ExportVersioned [export2])
      end
  end.

Definition v2Export (secrets : list SecretEntry) : err + Exported :=
  v2ExportLoop secrets (mkExportFormat 2 ∅ ∅) ExportNil.

(** The format choice of the [export] handler, applied to the merged
    fetched [Secrets]; the JSON encoding of [toExport] follows. *)
Definition Export (secrets : list SecretEntry) : err + Exported :=
  let mustV2Export :=
    existsb (fun s => Nat.ltb 1 (Datatypes.length (se_versions s))) secrets in
  if mustV2Export then v2Export secrets else v1Export secrets.

End ExportHandler.

(** ** Undelete, DeleteTree and the migration command handlers *)

(** [strings.Trim(s, "/")]: strip every leading and trailing slash. *)
Fixpoint dropSlash (l : list Ascii.ascii) : list Ascii.ascii :=
  match l with
  | c :: r => if Ascii.eqb c "/"%char then dropSlash r else l
  | [] => []
  end.

Definition trimSlash (s : string) : string :=
  string_of_list_ascii (rev (dropSlash (rev (dropSlash (list_ascii_of_string s))))).

Section Handlers.
Variable b : Backend.

(** [Vault.Undelete]. *)
Definition Undelete (a : addr) : M unit :=
  let secret := a_path a in
  if negb (String.eqb (a_key a) "")
  then fail (Failure "Cannot undelete specific key (%s)")
  else
  do respVersions <- Versions b secret;
  do version <- (if Nat.eqb (a_version a) 0
                 then do newest <- lastM respVersions; ret (kv_version newest)
                 else ret (a_version a));
  let destroyedErr := Failure "`%s' version: %d is destroyed" in
  do first <- nthM 0 respVersions;
  let firstVersion := kv_version first in
  if Nat.ltb version firstVersion then fail destroyedErr
  else
  let idx := uintToInt (uintSub version firstVersion) in
  if Z.leb (Z.of_nat (Datatypes.length respVersions)) idx
  then fail (Failure "version %d of `%s' does not yet exist")
  else
  do r <- (if Z.ltb idx 0 then fail (Panic "index out of range")
           else nthM (Z.to_nat idx) respVersions);
  if kv_destroyed r then fail destroyedErr
  else issue b (CUndelete secret [version]).


(** The [revert] command handler, from the parsed [PATH] and [VERSION]
    arguments; [revDeleted] is [--deleted].  [vault.EncodePath(secret, "", n)]
    parses back to the address [mkAddr secret "" n]. *)
Definition revert (a : addr) (targetVersion : nat) (revDeleted : bool) : M unit :=
  let secret := a_path a in
  if negb (String.eqb (a_key a) "")
  then fail (Failure "Cannot call revert with path containing key")
  else if Nat.ltb 0 (a_version a)
  then fail (Failure "Cannot call revert with path containing version")
  else if Nat.eqb targetVersion 0 then ret tt
  else
  do allVersions <- Versions b secret;
  let destroyedErr := Failure "Version %d of secret `%s' is destroyed" in
  do first <- nthM 0 allVersions;
  if Nat.ltb targetVersion (kv_version first) then fail destroyedErr
  else
  do newest <- lastM allVersions;
  if Nat.ltb (kv_version newest) targetVersion
  then fail (Failure "Version %d of secret `%s' does not exist")
  else
  do versionObject <- nthM (targetVersion - kv_version first) allVersions;
  if kv_destroyed versionObject then fail destroyedErr
  else
  do_ (if kv_deleted versionObject then
         if negb revDeleted
         then fail (Failure "Version %d of secret `%s' is deleted. To force a read, specify --deleted")
         else Undelete (mkAddr secret "" targetVersion)
       else ret tt);
  if Nat.eqb targetVersion (kv_version newest) then ret tt
  else
  do toWrite <- Read b (mkAddr secret "" targetVersion);
  do_ Write b (plain secret) toWrite;
  if kv_deleted versionObject
  then Delete b (mkAddr secret "" targetVersion) noDeleteOpts
  else ret tt.


End Handlers.

(** The deduplication loop of the [export] handler over its (sorted)
    arguments: a path is dropped while the last kept path, trimmed of
    slashes, is a string prefix of it ([strings.HasPrefix]). *)
Fixpoint dedupFrom (x : string) (l : list string) : list string :=
  match l with
  | [] => [x]
  | y :: rest =>
      if String.prefix (trimSlash x) (trimSlash y) then dedupFrom x rest
      else x :: dedupFrom y rest
  end.

Definition dedupPaths (args : list string) : list string :=
  match args with [] => [] | x :: l => dedupFrom x l end.

(** The options of [safe import]. *)
Record ImportOpts := mkImportOpts {
  ImportShallow : bool; IgnoreDestroyed : bool; IgnoreDeleted : bool }.

(** The loop of [v2Import] rebuilding the versions of one exported secret;
    [i] is the index in the exported list. *)
Fixpoint importLoop (o : ImportOpts) (firstVersion i : nat) (vs : list exportVersion)
  : list SecretVersion :=
  match vs with
  | [] => []
  | v :: rest =>
      let restL := importLoop o firstVersion (S i) rest in
      if ev_Destroyed v then
        if IgnoreDestroyed o then restL
        else mkSecretVersion (uintAdd firstVersion i) SecretStateDestroyed (ev_Value v) :: restL
      else if ev_Deleted v then
        if IgnoreDeleted o then restL
        else mkSecretVersion (uintAdd firstVersion i) SecretStateDeleted (ev_Value v) :: restL
      else mkSecretVersion (uintAdd firstVersion i) SecretStateAlive (ev_Value v) :: restL
  end.

(** The entry [v2Import] builds for one exported secret before replaying it
    onto [path]; [Versions[len-1:]] of an empty list panics. *)
Definition importEntry (o : ImportOpts) (path : string) (secret : exportSecret)
  : err + SecretEntry :=
  let firstVersion := if Nat.eqb (es_FirstVersion secret) 0 then 1
                      else es_FirstVersion secret in
  match (if ImportShallow o then
           match last (es_Versions secret) with
           | Some v => inr [v]
           | None => inl (Panic "slice bounds out of range")
           end
         else inr (es_Versions secret)) with
  | inl e => inl e
  | inr vs => inr (mkSecretEntry path (importLoop o firstVersion 0 vs))
  end.

(** The message of the [v2Import] mount check for a mount that is not a
    versioned (version 2) mount. *)
Definition mountNotVersionedMsg (mount : string) : string :=
  "Export for mount `" ++ mount ++ "' has secrets with multiple versions, but the mount either"
  ++ String "010"%char "does not exist or does not support versioning".

(** The loop of the [v2Import] mount check over [data.RequiresVersioning],
    taken in the iteration order [entries] Go happens to choose. *)
Fixpoint importMountLoop (b : Backend) (entries : list (string * bool)) : err + unit :=
  match entries with
  | [] => inr tt
  | (mount, needsVersioning) :: rest =>
      if needsVersioning then
        match kv_mount_version b mount with
        | inl e => inl (Wrapped "Could not determine existing mount version" e)
        | inr mountVersion =>
            if negb (Nat.eqb mountVersion 2)
            then inl (Failure (mountNotVersionedMsg mount))
            else importMountLoop b rest
        end
      else importMountLoop b rest
  end.

(** The mount check of [v2Import] ([if !opt.Import.Shallow { ... }]), for
    an iteration order [entries] of the map [RequiresVersioning] of the
    parsed record. *)
Definition importMountCheck (b : Backend) (o : ImportOpts)
  (entries : list (string * bool)) : err + unit :=
  if negb (ImportShallow o) then importMountLoop b entries else inr tt.

(** ** Sample backends

    Small concrete backends used to evaluate the engine: [storeBackend]
    answers [Get] (for every version) and [Versions] from association lists,
    serves every path from a v2 mount [secret/], has no folders, fetches trees
    from a third list, and lets [calls] decide the outcome of mutations. *)

Definition lookupS {A} (p : string) (l : list (string * A)) : option A :=
  match find (fun x => String.eqb x.1 p) l with Some x => Some x.2 | None => None end.

Definition storeBackend (versions : list (string * list KVVersion))
  (data : list (string * gmap string value)) (trees : list (string * list SecretEntry))
  (calls : Call -> option err) : Backend :=
  mkBackend
    (fun p _ => match lookupS p data with Some d => inr d | None => inl (ClientNotFound p) end)
    (fun p => match lookupS p versions with Some v => inr v | None => inl (ClientNotFound p) end)
    (fun _ => inr 2)
    (fun a => inl (ClientNotFound (a_path a)))
    (fun _ => inr "secret/")
    (fun p _ => match lookupS p trees with Some t => inr t | None => inl (ClientNotFound p) end)
    calls.

Definition noFailures : Call -> option err := fun _ => None.

Definition abData : gmap string value := {[ "a" := VStr "1"; "b" := VStr "2" ]}.

(** The retained versions [3:Alive, 4:Deleted, 5:Destroyed] of the spec. *)
Definition spec345 : Backend :=
  storeBackend [("secret/x", [mkKVVersion 3 false false; mkKVVersion 4 true false;
                              mkKVVersion 5 false true])]
               [("secret/x", abData)] [] noFailures.

(** Two alive versions of a two-key secret. *)
Definition twoVersions : Backend :=
  storeBackend [("secret/x", [mkKVVersion 1 false false; mkKVVersion 2 false false])]
               [("secret/x", abData)] [] noFailures.

(** [RO m]: [m] records no event and its outcome does not depend on the
    trace accumulated so far. *)
Definition RO {A} (m : M A) : Prop := forall tr, m tr = (tr, snd (m [])).

(** The verdict on one located version record. *)
Definition recordVerdict (a : addr) (st : VerifyState) (r : KVVersion) : err + unit :=
  if kv_destroyed r then inl (SecretNotFound (IsDestroyed a))
  else if isAlive st && kv_deleted r then inl (SecretNotFound (IsDeleted a))
  else inr tt.

(** Modelled from the spec's data model: version records are ordered by
    ascending number. *)
Fixpoint ascending (l : list nat) : bool :=
  match l with
  | x :: ((y :: _) as rest) => Nat.ltb x y && ascending rest
  | _ => true
  end.

(** A secret whose only live version is [3]: [3:Alive, 4:Destroyed]. *)
Definition oneLive : Backend :=
  storeBackend [("secret/y", [mkKVVersion 3 false false; mkKVVersion 4 false true])]
               [("secret/y", abData)] [] noFailures.


(** A one-key version record. *)
Definition sv (n : nat) (st : SecretState) : SecretVersion :=
  mkSecretVersion n st {[ "k" := "v" ]}.

(** A source [secret/x] and an existing destination [secret/y]. *)
Definition srcAndDst : Backend :=
  storeBackend [("secret/x", [mkKVVersion 1 false false]);
                ("secret/y", [mkKVVersion 1 false false])]
               [("secret/x", abData); ("secret/y", {[ "c" := VStr "3" ]})] [] noFailures.

(** [skipIfExists] set, advisory suppressed. *)
Definition skipQuiet : MoveCopyOpts := mkMoveCopyOpts true true false false.

(** [skipIfExists] set, advisory printed. *)
Definition skipLoud : MoveCopyOpts := mkMoveCopyOpts true false false false.

(** [deep] and [deletedVersions] set ([mv -d]). *)
Definition deepDeleted : MoveCopyOpts := mkMoveCopyOpts false false true true.

(** The fetched tree of [secret/a]. *)
Definition aEntry : SecretEntry :=
  mkSecretEntry "secret/a" [mkSecretVersion 1 SecretStateAlive {[ "a" := "1" ]}].

(** A backend refusing every destroy-all. *)
Definition destroyAllFails : Backend :=
  storeBackend [("secret/a", [mkKVVersion 1 false false])]
               [("secret/a", abData)] [("secret/a", [aEntry])]
               (fun c => match c with
                         | CDestroyAll _ => Some (Failure "permission denied")
                         | _ => None
                         end).

(** Trees [secret/a] (leaves [x], [y]) and [secret/b] (leaf [x]). *)
Definition collide : Backend :=
  storeBackend [] []
    [("secret/a", [mkSecretEntry "secret/a/x" []; mkSecretEntry "secret/a/y" []]);
     ("secret/b", [mkSecretEntry "secret/b/x" []])] noFailures.


(** A secret with no living version: [4:Deleted, 5:Destroyed]. *)
Definition deletedDestroyed : Backend :=
  storeBackend [("secret/x", [mkKVVersion 4 true false; mkKVVersion 5 false true])]
               [("secret/x", abData)] [] noFailures.

(** Two fetched secrets: [secret/x] with versions 3 (alive), 4 (deleted)
    and 5 (destroyed), [secret/y] with the single version 1. *)
Definition historyX : SecretEntry :=
  mkSecretEntry "secret/x"
    [mkSecretVersion 3 SecretStateAlive {[ "a" := "1" ]};
     mkSecretVersion 4 SecretStateDeleted {[ "a" := "2" ]};
     mkSecretVersion 5 SecretStateDestroyed {[ "a" := "3" ]}].

Definition historyY : SecretEntry :=
  mkSecretEntry "secret/y" [mkSecretVersion 1 SecretStateAlive {[ "b" := "4" ]}].

(** [secret/x] with one live version, fetchable as a tree of itself. *)
Definition copyable : Backend :=
  storeBackend [("secret/x", [mkKVVersion 1 false false])]
               [("secret/x", abData)]
               [("secret/x", [mkSecretEntry "secret/x"
                                [mkSecretVersion 1 SecretStateAlive {[ "a" := "1" ]}]])]
               noFailures.


(** A v1 mount holding the secret [secret/x] and the folder [secret/dir]. *)
Definition v1Mount : Backend :=
  mkBackend
    (fun p _ => if String.eqb p "secret/x" then inr abData else inl (ClientNotFound p))
    (fun p => inl (ClientNotFound p))
    (fun _ => inr 1)
    (fun a => if String.eqb (a_path a) "secret/dir" then inr ["x"]
              else inl (ClientNotFound (a_path a)))
    (fun _ => inr "secret/")
    (fun p _ => inl (ClientNotFound p))
    noFailures.

(** One versioned mount [kv2], one unversioned mount [kv1]; any other mount
    version lookup is refused. *)
Definition mixedMounts : Backend :=
  mkBackend
    (fun p _ => inl (ClientNotFound p))
    (fun p => inl (ClientNotFound p))
    (fun m => if String.eqb m "kv2" then inr 2
              else if String.eqb m "kv1" then inr 1
              else inl (Failure "permission denied"))
    (fun a => inl (ClientNotFound (a_path a)))
    (fun _ => inr "kv2/")
    (fun p _ => inl (ClientNotFound p))
    noFailures.

(** * Proofs *)

(** ** Read-only computations *)

Lemma RO_ret {A} (x : A) : RO (ret x).
Proof. intros tr. reflexivity. Qed.

Lemma RO_fail {A} (e : err) : RO (fail (A:=A) e).
Proof. intros tr. reflexivity. Qed.

Lemma RO_lift {A} (r : err + A) : RO (lift r).
Proof. intros tr. reflexivity. Qed.

Lemma RO_bind {A B} (m : M A) (k : A -> M B) :
  RO m -> (forall x, RO (k x)) -> RO (bindM m k).
Proof.
  intros Hm Hk tr. unfold bindM. rewrite (Hm tr), (Hm []).
  destruct (snd (m [])) as [e|x]; cbn; [reflexivity|].
  rewrite (Hk x tr), (Hk x []). reflexivity.
Qed.

Lemma RO_attempt {A} (m : M A) : RO m -> RO (attempt m).
Proof.
  intros Hm tr. unfold attempt. rewrite (Hm tr), (Hm []). reflexivity.
Qed.

Lemma RO_lastM {A} (l : list A) : RO (lastM l).
Proof. intros tr. unfold lastM. destruct (last l); reflexivity. Qed.

Lemma RO_nthM {A} (i : nat) (l : list A) : RO (nthM i l).
Proof. intros tr. unfold nthM. destruct (l !! i); reflexivity. Qed.

Create HintDb ro.
#[export] Hint Resolve RO_ret RO_fail RO_lift RO_lastM RO_nthM : ro.

(** Split a read-only goal along binds, branches and matches. *)
Ltac ro_solve :=
  repeat first
    [ apply RO_bind; [ | intro ]
    | apply RO_attempt
    | progress (eauto with ro)
    | match goal with
      | |- RO (if ?c then _ else _) => destruct c
      | |- RO (match ?x with _ => _ end) => destruct x
      end ].

Section ReadOnly.
Variable b : Backend.

Lemma RO_Read a : RO (Read b a).
Proof. unfold Read. ro_solve. Qed.

Lemma RO_List a : RO (List b a).
Proof. unfold List. ro_solve. Qed.

Lemma RO_Versions p : RO (Versions b p).
Proof. unfold Versions. ro_solve. Qed.

#[local] Hint Resolve RO_Read RO_List RO_Versions : ro.

Lemma RO_errIfFolder a : RO (errIfFolder b a).
Proof. unfold errIfFolder. ro_solve. Qed.

#[local] Hint Resolve RO_errIfFolder : ro.

Lemma RO_verifySecretExists a : RO (verifySecretExists b a).
Proof. unfold verifySecretExists. ro_solve. Qed.

#[local] Hint Resolve RO_verifySecretExists : ro.

Lemma RO_verifySecretState a o : RO (verifySecretState b a o).
Proof. unfold verifySecretState. ro_solve. Qed.

Lemma RO_canSemanticallyDelete a : RO (canSemanticallyDelete b a).
Proof. unfold canSemanticallyDelete. ro_solve. Qed.

End ReadOnly.

#[export] Hint Resolve RO_Read RO_List RO_Versions RO_errIfFolder
  RO_verifySecretExists RO_verifySecretState RO_canSemanticallyDelete : ro.

(** ** Read and Write *)

Lemma String_eqb_false (x y : string) : x <> y -> String.eqb x y = false.
Proof. apply String.eqb_neq. Qed.

(** [Write_with] of a non-empty secret does not depend on the [Delete] it
    is given: the knot of [Delete]/[Write] is exact. *)
Lemma Write_with_nonempty b d1 d2 a s :
  Empty s = false -> Write_with b d1 a s = Write_with b d2 a s.
Proof.
  intros He. unfold Write_with. rewrite He.
  destruct (negb (String.eqb (a_key a) "")), (negb (Nat.eqb (a_version a) 0)); reflexivity.
Qed.

Lemma Delete_unfold b a o tr : Delete b a o tr = Delete_with b (Write b) a o tr.
Proof.
  unfold Delete, Delete_with, deleteSpecificKey_with, bindM.
  destruct (verifySecretState b a _ tr) as [tr1 [e|[]]]; [reflexivity|].
  destruct (canSemanticallyDelete b a tr1) as [tr2 [e|[]]]; [reflexivity|].
  destruct (negb (PathHasKey a)); [reflexivity|].
  destruct (Read b (plain (a_path a)) tr2) as [tr3 [e|s]]; [reflexivity|].
  destruct (s !! a_key a); [|reflexivity].
  destruct (Empty (delete (a_key a) s)) eqn:He; [reflexivity|].
  unfold Write. rewrite (Write_with_nonempty b unreachableDelete (Delete b)); auto.
Qed.


(** C9: a key-qualified [Read] fails with [KeyNotFound] when the key is absent
    from the fetched snapshot, and otherwise returns a secret whose only key
    is the requested one. *)
Theorem Read_key_qualified_exact (b : Backend) (a : addr) (tr : list event) :
  a_key a <> "" ->
  (forall raw : gmap string value, kv_get b (a_path a) (a_version a) = inr raw ->
     raw !! a_key a = None -> Read b a tr = (tr, inl (KeyNotFound (a_path a) (a_key a)))) /\
  (forall s : secret, snd (Read b a tr) = inr s -> dom s = {[a_key a]}).
Proof.
  intros Hk. unfold Read. rewrite (String_eqb_false _ _ Hk). split.
  - intros raw Hg Hn. rewrite Hg. cbn. rewrite Hn. reflexivity.
  - intros s. destruct (kv_get b (a_path a) (a_version a)) as [e|raw]; cbn; [discriminate|].
    destruct (raw !! a_key a) as [v|]; cbn; [|discriminate].
    intros H. injection H as <-.
    rewrite map_filter_singleton_True.
    + rewrite dom_fmap_L, dom_singleton_L. reflexivity.
    + cbn. rewrite String.eqb_refl. reflexivity.
Qed.

Lemma Read_key_qualified_exact_witness :
  dom (match snd (Read spec345 (mkAddr "secret/x" "a" 4) []) with
       | inr s => s | inl _ => ∅ end) = {[ "a" ]}.
Proof.
  apply (proj2 (Read_key_qualified_exact spec345 (mkAddr "secret/x" "a" 4) []
                  ltac:(discriminate))).
  vm_compute. reflexivity.
Defined.




(** ** The version-state verifier on a v2 mount *)


Lemma bind_ro {A B} (m : M A) (k : A -> M B) tr :
  RO m ->
  bindM m k tr = match snd (m []) with inl e => (tr, inl e) | inr x => k x tr end.
Proof. intros Hm. unfold bindM. rewrite (Hm tr). reflexivity. Qed.

Lemma bind_lift {A B} (r : err + A) (k : A -> M B) tr :
  bindM (lift r) k tr = match r with inl e => (tr, inl e) | inr x => k x tr end.
Proof. reflexivity. Qed.

Lemma Versions_ok b p l : kv_versions b p = inr l -> Versions b p = ret l.
Proof. intros H. unfold Versions. rewrite H. reflexivity. Qed.

Lemma verify_v2_unfold b a st l tr :
  kv_mount_version b (a_path a) = inr 2 -> kv_versions b (a_path a) = inr l ->
  verifySecretState b a (mkVerifyOpts false st) tr =
  (tr, match snd ((if Nat.eqb (a_version a) 0 then lastM l
                   else do first <- nthM 0 l;
                        if Nat.ltb (a_version a) (kv_version first)
                        then fail (SecretNotFound (IsDestroyed a))
                        else do newest <- lastM l;
                        if Nat.ltb (kv_version newest) (a_version a)
                        then fail (SecretNotFound (NotYetExist a))
                        else nthM (a_version a - kv_version first) l) []) with
       | inl e => inl e
       | inr r => recordVerdict a st r
       end).
Proof.
  intros Hm Hl. unfold verifySecretState. cbv zeta.
  rewrite bind_lift, Hm. cbv beta iota.
  rewrite (Versions_ok _ _ _ Hl). cbn [attempt ret bindM AnyVersion negb].
  rewrite bind_ro.
  2:{ destruct (Nat.eqb (a_version a) 0); ro_solve. }
  destruct (snd _) as [e|r]; [reflexivity|].
  unfold recordVerdict. cbn [State].
  destruct (kv_destroyed r); [reflexivity|].
  destruct (isAlive st && kv_deleted r); reflexivity.
Qed.

(** C3: on a v2 mount whose retained versions [l] are non-empty and numbered
    contiguously from [first], the check with [anyVersion] false reports an
    explicit version below [first] as destroyed, a version above the newest
    as not yet existing, and otherwise judges the matching record (the
    newest one for version 0): destroyed, deleted when [Alive] is required,
    or success. *)
Theorem verifySecretState_v2_versions (b : Backend) (a : addr) (st : VerifyState)
  (l : list KVVersion) (first : nat) (tr : list event) :
  kv_mount_version b (a_path a) = inr 2 ->
  kv_versions b (a_path a) = inr l ->
  l <> [] ->
  (forall i r, l !! i = Some r -> kv_version r = first + i) ->
  (a_version a <> 0 -> a_version a < first ->
     verifySecretState b a (mkVerifyOpts false st) tr
     = (tr, inl (SecretNotFound (IsDestroyed a)))) /\
  (first + Datatypes.length l - 1 < a_version a ->
     verifySecretState b a (mkVerifyOpts false st) tr
     = (tr, inl (SecretNotFound (NotYetExist a)))) /\
  (forall r, (a_version a = 0 /\ last l = Some r) \/
             (a_version a <> 0 /\ r ∈ l /\ kv_version r = a_version a) ->
     verifySecretState b a (mkVerifyOpts false st) tr = (tr, recordVerdict a st r)).
Proof.
  intros Hm Hl Hne Hc. rewrite (verify_v2_unfold b a st l tr Hm Hl).
  destruct l as [|r0 l']; [contradiction|].
  assert (H0 : kv_version r0 = first) by (rewrite (Hc 0 r0 eq_refl); lia).
  destruct (last (r0 :: l')) as [rl|] eqn:Hlast.
  2:{ exfalso. assert (is_Some (last (r0 :: l'))) as [? Hs] by (apply last_is_Some; done).
      congruence. }
  assert (Hrl : kv_version rl = first + Datatypes.length (r0 :: l') - 1).
  { rewrite last_lookup in Hlast. rewrite (Hc _ _ Hlast). cbn [Datatypes.length]. lia. }
  unfold lastM, nthM. rewrite Hlast. cbn [lookup list_lookup].
  split; [|split].
  - intros Hv Hlt. apply Nat.eqb_neq in Hv. rewrite Hv. cbn -[Nat.ltb].
    replace (Nat.ltb (a_version a) (kv_version r0)) with true
      by (symmetry; apply Nat.ltb_lt; lia). reflexivity.
  - intros Hgt. destruct (Nat.eqb (a_version a) 0) eqn:Hv.
    { apply Nat.eqb_eq in Hv. lia. }
    cbn -[Nat.ltb]. replace (Nat.ltb (a_version a) (kv_version r0)) with false
      by (symmetry; apply Nat.ltb_ge; cbn [Datatypes.length] in Hgt; lia).
    cbn -[Nat.ltb]. replace (Nat.ltb (kv_version rl) (a_version a)) with true
      by (symmetry; apply Nat.ltb_lt; lia). reflexivity.
  - intros r [[Hv Hr] | [Hv [Hin Hr]]].
    + rewrite Hv. cbn -[Nat.ltb]. congruence.
    + apply Nat.eqb_neq in Hv. rewrite Hv. cbn -[Nat.ltb].
      apply list_elem_of_lookup_1 in Hin as [i Hi].
      pose proof (Hc _ _ Hi) as Hci.
      pose proof (lookup_lt_Some _ _ _ Hi) as Hlen.
      replace (Nat.ltb (a_version a) (kv_version r0)) with false
        by (symmetry; apply Nat.ltb_ge; lia).
      cbn -[Nat.ltb]. replace (Nat.ltb (kv_version rl) (a_version a)) with false
        by (symmetry; apply Nat.ltb_ge; lia).
      cbn -[Nat.ltb]. replace (a_version a - kv_version r0) with i by lia.
      change ((r0 :: l') !! i) with ((r0 :: l') !! i). rewrite Hi. reflexivity.
Qed.

Lemma spec345_contiguous (i : nat) (r : KVVersion) :
  [mkKVVersion 3 false false; mkKVVersion 4 true false; mkKVVersion 5 false true] !! i
  = Some r -> kv_version r = 3 + i.
Proof.
  destruct i as [|[|[|i]]]; cbn; intros H; inversion H; reflexivity.
Qed.

(** The four boundary cases of the spec on the versions [3:Alive, 4:Deleted,
    5:Destroyed]. *)
Lemma verifySecretState_v2_versions_witness :
  let x n := mkAddr "secret/x" "" n in
  let o := mkVerifyOpts false verifyStateAlive in
  verifySecretState spec345 (x 4) o [] = ([], inl (SecretNotFound (IsDeleted (x 4)))) /\
  verifySecretState spec345 (x 5) o [] = ([], inl (SecretNotFound (IsDestroyed (x 5)))) /\
  verifySecretState spec345 (x 2) o [] = ([], inl (SecretNotFound (IsDestroyed (x 2)))) /\
  verifySecretState spec345 (x 9) o [] = ([], inl (SecretNotFound (NotYetExist (x 9)))).
Proof.
  intros x o.
  assert (Hne : [mkKVVersion 3 false false; mkKVVersion 4 true false;
                 mkKVVersion 5 false true] <> []) by discriminate.
  pose proof (fun n => verifySecretState_v2_versions spec345 (x n) verifyStateAlive _ 3 []
                eq_refl eq_refl Hne spec345_contiguous) as H.
  split; [|split; [|split]].
  - apply (proj2 (proj2 (H 4)) (mkKVVersion 4 true false)).
    right. split; [discriminate|]. split; [|reflexivity].
    apply list_elem_of_In. cbn. tauto.
  - apply (proj2 (proj2 (H 5)) (mkKVVersion 5 false true)).
    right. split; [discriminate|]. split; [|reflexivity].
    apply list_elem_of_In. cbn. tauto.
  - apply (proj1 (H 2)); cbn; lia.
  - apply (proj1 (proj2 (H 9))); cbn; lia.
Defined.

(** ** Destroying a whole secret *)


Lemma ascending_tail x l : ascending (x :: l) = true -> ascending l = true.
Proof. destruct l; cbn; [reflexivity|]. intros H. apply andb_prop in H. tauto. Qed.

Lemma ascending_head_lt x l : ascending (x :: l) = true -> forall y, In y l -> x < y.
Proof.
  revert x. induction l as [|z l IH]; intros x H y Hy; [destruct Hy|].
  cbn in H. apply andb_prop in H as [Hxz Hrest]. apply Nat.ltb_lt in Hxz.
  destruct Hy as [<-|Hy]; [lia|]. specialize (IH z Hrest y Hy). lia.
Qed.

(** With a single target version [t], the [shouldNuke] loop over ascending
    records decides whether every record is destroyed or numbered [t]. *)
Lemma nukeLoop_single (l : list KVVersion) (t i : nat) :
  ascending (map kv_version l) = true ->
  (i = 0 \/ (i = 1 /\ forall r, In r l -> t < kv_version r)) ->
  nukeLoop l [t] i = forallb (fun r => kv_destroyed r || Nat.eqb t (kv_version r)) l.
Proof.
  revert i. induction l as [|r rest IH]; intros i Hasc Hi; [reflexivity|].
  pose proof (ascending_tail _ _ Hasc) as Hasc'.
  pose proof (ascending_head_lt _ _ Hasc) as Hlt.
  assert (Hrest : forall r', In r' rest -> kv_version r < kv_version r').
  { intros r' Hr'. apply Hlt. apply in_map. exact Hr'. }
  cbn [nukeLoop forallb].
  destruct Hi as [-> | [-> Hall]].
  - cbn [advance Datatypes.length lookup list_lookup].
    destruct (Nat.ltb t (kv_version r)) eqn:Htv.
    + apply Nat.ltb_lt in Htv. cbn [advance lookup list_lookup].
      replace (Nat.eqb t (kv_version r)) with false by (symmetry; apply Nat.eqb_neq; lia).
      destruct (kv_destroyed r); cbn; [|reflexivity].
      apply IH; [exact Hasc'|]. right. split; [reflexivity|].
      intros r' Hr'. specialize (Hrest r' Hr'). lia.
    + cbn [lookup list_lookup].
      rewrite (Nat.eqb_sym t (kv_version r)).
      destruct (kv_destroyed r), (Nat.eqb (kv_version r) t); cbn; try reflexivity;
        apply IH; auto.
  - assert (Htr : t < kv_version r) by (apply Hall; left; reflexivity).
    cbn [advance Datatypes.length lookup list_lookup].
    replace (Nat.eqb t (kv_version r)) with false by (symmetry; apply Nat.eqb_neq; lia).
    destruct (kv_destroyed r); cbn; [|reflexivity].
    apply IH; [exact Hasc'|]. right. split; [reflexivity|].
    intros r' Hr'. apply Hall. right. exact Hr'.
Qed.

Lemma deleteEntireSecret_destroy b a l newest tr :
  kv_versions b (a_path a) = inr l -> last l = Some newest ->
  deleteEntireSecret b a true false tr =
  (let target := if Nat.eqb (a_version a) 0 then [kv_version newest] else [a_version a] in
   if shouldNuke l target then issue b (CDestroyAll (a_path a)) tr
   else issue b (CDestroy (a_path a) target) tr).
Proof.
  intros Hl Hlast. unfold deleteEntireSecret. cbn [andb].
  rewrite (Versions_ok _ _ _ Hl).
  destruct (Nat.eqb (a_version a) 0); cbn [negb];
    unfold bindM, ret, lastM; try rewrite Hlast; cbn -[shouldNuke issue];
    destruct (shouldNuke _ _); reflexivity.
Qed.

(** C4: a whole-secret [Delete] with [destroy] and not [all] on a v2 secret
    with ascending retained versions targets the explicit version, or else
    the newest one; it escalates to one destroy-all of the path when every
    retained version not yet destroyed is the target, and otherwise destroys
    exactly the target. *)
Theorem Delete_destroy_escalates (b : Backend) (a : addr) (l : list KVVersion)
  (newest : KVVersion) (tr : list event) :
  a_key a = "" ->
  snd (verifySecretState b a (mkVerifyOpts false verifyStateAliveOrDeleted) tr) = inr tt ->
  kv_versions b (a_path a) = inr l ->
  last l = Some newest ->
  ascending (map kv_version l) = true ->
  let target := if Nat.eqb (a_version a) 0 then kv_version newest else a_version a in
  Delete b a (mkDeleteOpts true false) tr =
  (if forallb (fun r => kv_destroyed r || Nat.eqb target (kv_version r)) l
   then issue b (CDestroyAll (a_path a)) tr
   else issue b (CDestroy (a_path a) [target]) tr).
Proof.
  intros Hk Hv Hl Hlast Hasc target.
  unfold Delete, Delete_with. cbn [Destroy All].
  rewrite bind_ro by apply RO_verifySecretState.
  rewrite (RO_verifySecretState b a _ tr) in Hv. cbn [snd] in Hv. rewrite Hv.
  rewrite bind_ro by apply RO_canSemanticallyDelete.
  unfold canSemanticallyDelete at 1. rewrite Hk. cbn [String.eqb orb snd ret].
  unfold PathHasKey. rewrite Hk. cbn [String.eqb negb].
  rewrite (deleteEntireSecret_destroy b a l newest tr Hl Hlast). cbv zeta.
  unfold shouldNuke. subst target.
  destruct (Nat.eqb (a_version a) 0);
    rewrite nukeLoop_single by (auto || (left; reflexivity)); reflexivity.
Qed.

(** Destroying the only live version [3] of [3:Alive, 4:Destroyed] escalates;
    destroying version [3] of the spec's [3:Alive, 4:Deleted, 5:Destroyed]
    does not, as version 4 is only deleted. *)
Lemma Delete_destroy_escalates_witness :
  Delete oneLive (mkAddr "secret/y" "" 3) (mkDeleteOpts true false) [] =
    ([EvCall (CDestroyAll "secret/y")], inr tt) /\
  Delete spec345 (mkAddr "secret/x" "" 3) (mkDeleteOpts true false) [] =
    ([EvCall (CDestroy "secret/x" [3])], inr tt).
Proof.
  split.
  - rewrite (Delete_destroy_escalates oneLive (mkAddr "secret/y" "" 3)
               [mkKVVersion 3 false false; mkKVVersion 4 false true]
               (mkKVVersion 4 false true) [] eq_refl); vm_compute; reflexivity.
  - rewrite (Delete_destroy_escalates spec345 (mkAddr "secret/x" "" 3)
               [mkKVVersion 3 false false; mkKVVersion 4 true false; mkKVVersion 5 false true]
               (mkKVVersion 5 false true) [] eq_refl); vm_compute; reflexivity.
Defined.

(** ** Deleting one key *)





(** ** Export format choice *)

Section ExportProofs.
Variable b : Backend.
Variables shallow deleted : bool.

Lemma v1ExportLoop_ok (secrets : list SecretEntry) (acc : gmap string secret) :
  Forall (fun s => se_versions s <> []) secrets ->
  exists m, v1ExportLoop secrets acc = inr m.
Proof.
  revert acc. induction secrets as [|s rest IH]; intros acc Hne; [eexists; reflexivity|].
  inversion Hne as [|? ? Hs Hrest]; subst. cbn.
  destruct (se_versions s) as [|v0 vs]; [contradiction|]. apply IH. exact Hrest.
Qed.

Lemma v2ExportLoop_versioned (secrets : list SecretEntry) (export : exportFormat)
  (ef : exportFormat) :
  Forall (fun s => se_versions s <> []) secrets ->
  ExportVersion ef = ExportVersion export ->
  exists ef', v2ExportLoop b shallow deleted secrets export (ExportVersioned [ef])
              = inr (ExportVersioned [ef']) /\ ExportVersion ef' = ExportVersion export.
Proof.
  revert export ef. induction secrets as [|s rest IH]; intros export ef Hne Hv.
  - exists ef. split; [reflexivity|exact Hv].
  - inversion Hne as [|? ? Hs Hrest]; subst. cbn [v2ExportLoop].
    destruct (se_versions s) as [|v0 vs] eqn:Hvs; [contradiction|].
    match goal with
    | |- exists _, v2ExportLoop _ _ _ _ ?e2 _ = _ /\ _ =>
        destruct (IH e2 e2 Hrest eq_refl) as [ef' [Hr Hv']]
    end.
    exists ef'. split; [exact Hr|]. rewrite Hv'. cbn.
    match goal with |- context [if ?c then _ else _] => destruct c end; reflexivity.
Qed.

Lemma v2ExportLoop_not_legacy (secrets : list SecretEntry) (export : exportFormat)
  (toExport : Exported) m :
  (forall m', toExport <> ExportLegacy m') ->
  v2ExportLoop b shallow deleted secrets export toExport <> inr (ExportLegacy m).
Proof.
  revert export toExport. induction secrets as [|s rest IH]; intros export toExport Hto.
  - cbn. intros H. injection H as H. exact (Hto m H).
  - cbn [v2ExportLoop]. destruct (se_versions s); [discriminate|].
    apply IH. intros m' H. discriminate H.
Qed.

End ExportProofs.

(** C6: for a non-empty fetched collection whose entries all have versions,
    [export] chooses the legacy flat map exactly when every entry has one
    version, and the one-element envelope with [export_version] 2 as soon as
    an entry has two or more. *)
Theorem Export_format_choice (b : Backend) (shallow deleted : bool)
  (secrets : list SecretEntry) :
  secrets <> [] ->
  Forall (fun s => se_versions s <> []) secrets ->
  ((exists m, Export b shallow deleted secrets = inr (ExportLegacy m)) <->
   Forall (fun s => Datatypes.length (se_versions s) = 1) secrets) /\
  ((exists s, In s secrets /\ 2 <= Datatypes.length (se_versions s)) ->
   exists ef, Export b shallow deleted secrets = inr (ExportVersioned [ef]) /\
              ExportVersion ef = 2).
Proof.
  intros Hsne Hne. unfold Export.
  set (mustV2 := existsb _ secrets).
  assert (HV2 : mustV2 = true <->
                exists s, In s secrets /\ 2 <= Datatypes.length (se_versions s)).
  { subst mustV2. rewrite existsb_exists.
    split; intros [s [Hin Hs]]; exists s; split; auto.
    - apply Nat.ltb_lt in Hs. lia.
    - apply Nat.ltb_lt. lia. }
  assert (Hversioned : mustV2 = true ->
            exists ef, v2Export b shallow deleted secrets = inr (ExportVersioned [ef]) /\
                       ExportVersion ef = 2).
  { intros _. unfold v2Export.
    destruct secrets as [|s rest]; [contradiction|].
    inversion Hne as [|? ? Hs Hrest]; subst. cbn [v2ExportLoop].
    destruct (se_versions s) as [|v0 vs]; [contradiction|].
    match goal with
    | |- exists _, v2ExportLoop _ _ _ _ ?e2 _ = _ /\ _ =>
        destruct (v2ExportLoop_versioned b shallow deleted rest e2 e2 Hrest eq_refl)
          as [ef' [Hr Hv']]
    end.
    exists ef'. split; [exact Hr|]. rewrite Hv'. cbn.
    match goal with |- context [if ?c then _ else _] => destruct c end; reflexivity. }
  split.
  - split.
    + intros [m Hm]. destruct mustV2 eqn:Hmust.
      * exfalso. revert Hm. unfold v2Export.
        apply v2ExportLoop_not_legacy. intros m' H. discriminate H.
      * rewrite Stdlib.Lists.List.Forall_forall. intros s Hin.
        rewrite Stdlib.Lists.List.Forall_forall in Hne. specialize (Hne s Hin).
        destruct (Nat.ltb 1 (Datatypes.length (se_versions s))) eqn:Hl.
        -- exfalso.
           assert (Ht : exists s, In s secrets /\ 2 <= Datatypes.length (se_versions s)).
           { exists s. split; [exact Hin|]. apply Nat.ltb_lt in Hl. lia. }
           apply HV2 in Ht. discriminate.
        -- apply Nat.ltb_ge in Hl. destruct (se_versions s); [contradiction|].
           cbn in Hl |- *. lia.
    + intros Hone. destruct mustV2 eqn:Hmust.
      * exfalso. destruct (proj1 HV2 eq_refl) as [s [Hin Hs]].
        rewrite Stdlib.Lists.List.Forall_forall in Hone. specialize (Hone s Hin). lia.
      * unfold v1Export. destruct (v1ExportLoop_ok secrets ∅ Hne) as [m Hm].
        rewrite Hm. eexists. reflexivity.
  - intros Hsome. apply HV2 in Hsome. rewrite Hsome. apply Hversioned. exact Hsome.
Qed.


Lemma Export_format_choice_witness :
  (exists ef, Export spec345 false false
                [mkSecretEntry "a/b" [sv 1 SecretStateAlive];
                 mkSecretEntry "a/c" [sv 1 SecretStateAlive; sv 2 SecretStateAlive]]
              = inr (ExportVersioned [ef]) /\ ExportVersion ef = 2) /\
  Forall (fun s => Datatypes.length (se_versions s) = 1)
    [mkSecretEntry "a/b" [sv 1 SecretStateAlive]].
Proof.
  split.
  - apply (proj2 (Export_format_choice spec345 false false
                    [mkSecretEntry "a/b" [sv 1 SecretStateAlive];
                     mkSecretEntry "a/c" [sv 1 SecretStateAlive; sv 2 SecretStateAlive]]
                    ltac:(discriminate)
                    ltac:(repeat constructor; discriminate))).
    exists (mkSecretEntry "a/c" [sv 1 SecretStateAlive; sv 2 SecretStateAlive]).
    split; [right; left; reflexivity | cbn; lia].
  - apply (proj1 (proj1 (Export_format_choice spec345 false false
                           [mkSecretEntry "a/b" [sv 1 SecretStateAlive]]
                           ltac:(discriminate) ltac:(repeat constructor; discriminate)))).
    eexists. vm_compute. reflexivity.
Defined.

(** ** Copy and Move onto an existing destination *)

(** C1 (code bug): with [skipIfExists] and an existing destination, [Copy]
    returns success without any call, but [Move] then still deletes the
    source: the latest version of [secret/x] is soft-deleted although
    nothing was copied. *)
Theorem Move_skip_deletes_source :
  Read srcAndDst (plain "secret/y") [] = ([], inr {[ "c" := "3" ]}) /\
  Copy srcAndDst (plain "secret/x") (plain "secret/y") skipQuiet [] = ([], inr tt) /\
  Move srcAndDst (plain "secret/x") (plain "secret/y") skipQuiet [] =
    ([EvCall (CDelete "secret/x" [])], inr tt).
Proof. split; [|split]; vm_compute; reflexivity. Qed.

(** ** Deleting a key of a non-latest version *)

(** C2 (code bug): version 1 of [secret/x] is not the latest (2) and holds
    the two keys [a] and [b]; [canSemanticallyDelete] reads it key-qualified,
    sees one key and lets the delete of [secret/x:a^1] through, which
    rewrites the latest version without [a].  [Move] goes the same way. *)
Theorem Delete_nonlatest_key_unguarded :
  Versions twoVersions "secret/x" [] =
    ([], inr [mkKVVersion 1 false false; mkKVVersion 2 false false]) /\
  Read twoVersions (mkAddr "secret/x" "" 1) [] = ([], inr {[ "a" := "1"; "b" := "2" ]}) /\
  canSemanticallyDelete twoVersions (mkAddr "secret/x" "a" 1) [] = ([], inr tt) /\
  Delete twoVersions (mkAddr "secret/x" "a" 1) noDeleteOpts [] =
    ([EvCall (CSet "secret/x" {[ "b" := "2" ]})], inr tt) /\
  Move twoVersions (mkAddr "secret/x" "a" 1) (plain "secret/z")
       (mkMoveCopyOpts false false false false) [] =
    ([EvCall (CSet "secret/z" {[ "a" := "1" ]});
      EvCall (CSet "secret/x" {[ "b" := "2" ]})], inr tt).
Proof. repeat split; vm_compute; reflexivity. Qed.

(** ** The deep move's source cleanup *)

(** C5 (code bug): the deep move replays the source and issues the
    destroy-all of the source; the backend refuses it, and [Move] still
    reports success. *)
Theorem Move_deep_drops_destroyAll_error :
  kv_call destroyAllFails (CDestroyAll "secret/a") = Some (Failure "permission denied") /\
  Move destroyAllFails (plain "secret/a") (plain "secret/b") deepDeleted [] =
    ([EvCall (CReplay aEntry "secret/b" true true); EvCall (CDestroyAll "secret/a")],
     inr tt).
Proof. split; vm_compute; reflexivity. Qed.

(** ** Tree copies onto existing destinations *)

(** C8 (counterexample): [secret/a/x] would land on the existing
    [secret/b/x]; with [Quiet] the skip reports nothing. *)
Lemma MoveCopyTree_quiet_silent :
  MoveCopyTree collide "secret/a" "secret/b" (CopyPaths collide) skipQuiet [] = ([], inr tt) /\
  MoveCopyTree collide "secret/a" "secret/b" (CopyPaths collide) skipLoud [] =
    ([EvWarnPaths "secret/b" ["secret/b/x"]], inr tt).
Proof. split; vm_compute; reflexivity. Qed.

Lemma colliding_In (oldRoot newRoot : string) (tree newTree : list SecretEntry) q :
  In q (filter (fun p => existsb (String.eqb p) (Paths newTree) = true)
           (map (replaceFirst oldRoot newRoot) (Paths tree))) <->
  In q (map (replaceFirst oldRoot newRoot) (Paths tree)) /\ In q (Paths newTree).
Proof.
  rewrite <- !list_elem_of_In, list_elem_of_filter, !list_elem_of_In, existsb_exists.
  split.
  - intros [[x [Hx Hqx]] H]. apply String.eqb_eq in Hqx. subst x. tauto.
  - intros [H1 H2]. split; [|exact H1]. exists q. split; [exact H2|apply String.eqb_refl].
Qed.

(** C8 (amended): with [skipIfExists], a source listing that succeeds and a
    destination listing that succeeds (or fails with a not-found error, read
    as empty), as soon as one listed leaf's destination (the first
    occurrence of [oldRoot] replaced by [newRoot]) is in the destination
    listing, [MoveCopyTree] returns success without ever running the
    per-leaf operation [f], so it adds nothing to the trace but, unless
    [Quiet] is set, one report naming the colliding destinations: every
    listed leaf's destination found in the destination listing, and only
    such paths. *)
Theorem MoveCopyTree_skip_collisions (b : Backend) (oldRoot newRoot : string)
  (f : string -> string -> MoveCopyOpts -> M unit) (opts : MoveCopyOpts)
  (tree newTree : list SecretEntry) (tr : list event) :
  SkipIfExists opts = true ->
  kv_construct b oldRoot (mkTreeOpts false false false false (Deep opts) true) = inr tree ->
  (kv_construct b newRoot (mkTreeOpts false false false false (negb (Deep opts)) true)
     = inr newTree \/
   (exists e, kv_construct b newRoot
                (mkTreeOpts false false false false (negb (Deep opts)) true) = inl e /\
              IsNotFound e = true /\ newTree = [])) ->
  (exists p, In p (Paths tree) /\ In (replaceFirst oldRoot newRoot p) (Paths newTree)) ->
  exists colliding,
    MoveCopyTree b oldRoot newRoot f opts tr =
      (app tr (if Quiet opts then [] else [EvWarnPaths newRoot colliding]), inr tt) /\
    (forall p, In p (Paths tree) -> In (replaceFirst oldRoot newRoot p) (Paths newTree) ->
       In (replaceFirst oldRoot newRoot p) colliding) /\
    (forall q, In q colliding ->
       In q (Paths newTree) /\
       exists p, In p (Paths tree) /\ q = replaceFirst oldRoot newRoot p).
Proof.
  intros Hskip Hold Hnew [p [Hp Hpn]].
  exists (filter (fun q => existsb (String.eqb q) (Paths newTree) = true)
            (map (replaceFirst oldRoot newRoot) (Paths tree))).
  split; [|split].
  - unfold MoveCopyTree. rewrite bind_lift, Hold. rewrite Hskip.
    unfold bindM at 2 3, attempt, lift. cbv beta iota.
    destruct Hnew as [Hn | [e [Hn [He ->]]]]; [|cbn in Hpn; contradiction].
    rewrite Hn. cbv beta iota.
    assert (Hc : In (replaceFirst oldRoot newRoot p)
                   (filter (fun q => existsb (String.eqb q) (Paths newTree) = true)
                      (map (replaceFirst oldRoot newRoot) (Paths tree)))).
    { apply colliding_In. split; [apply in_map; exact Hp|exact Hpn]. }
    unfold bindM, emit, ret. cbv beta iota.
    remember (filter (fun q => existsb (String.eqb q) (Paths newTree) = true)
                (map (replaceFirst oldRoot newRoot) (Paths tree))) as c eqn:Hceq.
    destruct c as [|c0 cs]; [destruct Hc|].
    destruct (Quiet opts); [rewrite app_nil_r|]; reflexivity.
  - intros q Hq Hqn. apply colliding_In. split; [apply in_map; exact Hq|exact Hqn].
  - intros q Hq. apply colliding_In in Hq as [Hm Hn].
    apply in_map_iff in Hm as [p' [Heq Hp']].
    split; [exact Hn|]. exists p'. split; [exact Hp' | symmetry; exact Heq].
Qed.

Lemma MoveCopyTree_skip_collisions_witness :
  exists colliding,
    MoveCopyTree collide "secret/a" "secret/b" (CopyPaths collide) skipLoud [] =
      (app [] (if Quiet skipLoud then [] else [EvWarnPaths "secret/b" colliding]), inr tt) /\
    (forall p, In p (Paths [mkSecretEntry "secret/a/x" []; mkSecretEntry "secret/a/y" []]) ->
       In (replaceFirst "secret/a" "secret/b" p) (Paths [mkSecretEntry "secret/b/x" []]) ->
       In (replaceFirst "secret/a" "secret/b" p) colliding) /\
    (forall q, In q colliding ->
       In q (Paths [mkSecretEntry "secret/b/x" []]) /\
       exists p, In p (Paths [mkSecretEntry "secret/a/x" []; mkSecretEntry "secret/a/y" []]) /\
                 q = replaceFirst "secret/a" "secret/b" p).
Proof.
  apply (MoveCopyTree_skip_collisions collide "secret/a" "secret/b" (CopyPaths collide)
           skipLoud [mkSecretEntry "secret/a/x" []; mkSecretEntry "secret/a/y" []]
           [mkSecretEntry "secret/b/x" []] []).
  - reflexivity.
  - reflexivity.
  - left. reflexivity.
  - exists "secret/a/x". split; [left; reflexivity|]. vm_compute. left. reflexivity.
Defined.

(** ** Copy onto an existing destination *)

(** X1: with [skipIfExists], once the source passes verification and the
    destination reads back, [Copy] issues no mutation call and returns
    success; only the advisory is recorded, unless [Quiet] is set. *)
Theorem Copy_skip_existing (b : Backend) (src dst : addr) (opts : MoveCopyOpts)
  (s : secret) (tr : list event) :
  SkipIfExists opts = true ->
  (DeletedVersions opts = true -> Deep opts = true) ->
  snd (verifySecretState b src
         (mkVerifyOpts (Deep opts)
            (if DeletedVersions opts then verifyStateAliveOrDeleted else verifyStateAlive))
         []) = inr tt ->
  snd (Read b dst []) = inr s ->
  Copy b src dst opts tr =
    (app tr (if Quiet opts then [] else [EvWarn (a_path dst)]), inr tt).
Proof.
  intros Hskip Hdv Hver Hread. unfold Copy.
  assert (Hg : DeletedVersions opts && negb (Deep opts) = false).
  { destruct (DeletedVersions opts); [rewrite (Hdv eq_refl)|]; reflexivity. }
  rewrite Hg. cbv zeta.
  rewrite (bind_ro (verifySecretState b src _)) by apply RO_verifySecretState.
  rewrite Hver, Hskip.
  unfold bindM, attempt. rewrite (RO_Read b dst tr), Hread. cbv beta iota.
  destruct (Quiet opts); unfold ret, emit; [rewrite app_nil_r|]; reflexivity.
Qed.

Lemma Copy_skip_existing_witness :
  Copy srcAndDst (plain "secret/x") (plain "secret/y") skipLoud [] =
    (app [] (if Quiet skipLoud then [] else [EvWarn (a_path (plain "secret/y"))]), inr tt).
Proof.
  apply (Copy_skip_existing srcAndDst (plain "secret/x") (plain "secret/y") skipLoud
           {[ "c" := "3" ]} []).
  - reflexivity.
  - intros H. discriminate H.
  - vm_compute. reflexivity.
  - vm_compute. reflexivity.
Defined.

(** ** Go's 64-bit index arithmetic *)

Lemma uintToInt_uintSub_small (x y : nat) :
  y <= x -> (Z.of_nat (x - y) < 2 ^ 63)%Z -> uintToInt (uintSub x y) = Z.of_nat (x - y).
Proof.
  intros Hle Hlt. unfold uintToInt, uintSub.
  rewrite Z.mod_small by lia. rewrite <- Nat2Z.inj_sub by exact Hle.
  replace (Z.ltb (Z.of_nat (x - y)) (2 ^ 63)) with true
    by (symmetry; apply Z.ltb_lt; exact Hlt). reflexivity.
Qed.

Lemma uintToInt_uintSub_large (x y : nat) :
  (2 ^ 63 <= Z.of_nat (x - y) < 2 ^ 64)%Z ->
  uintToInt (uintSub x y) = (Z.of_nat (x - y) - 2 ^ 64)%Z.
Proof.
  intros [Hge Hlt]. assert (Hle : y <= x) by lia. unfold uintToInt, uintSub.
  rewrite Z.mod_small by lia. rewrite <- Nat2Z.inj_sub by exact Hle.
  replace (Z.ltb (Z.of_nat (x - y)) (2 ^ 63)) with false
    by (symmetry; apply Z.ltb_ge; exact Hge). reflexivity.
Qed.

(** ** Undelete *)

(** X2: on a secret whose retained versions [l] are non-empty and numbered
    contiguously from [first], [Undelete] of a plain address targets the
    explicit version, or the newest one for version 0; a target below
    [first] or a destroyed target fails as destroyed, a target past the
    newest fails as not yet existing while its distance to [first] is below
    2^63, and panics when that distance, converted to a Go [int], is
    negative, all without any call; otherwise it issues exactly one undelete
    of the target version. *)
Theorem Undelete_versions (b : Backend) (a : addr) (l : list KVVersion) (first : nat)
  (tr : list event) :
  a_key a = "" ->
  kv_versions b (a_path a) = inr l ->
  l <> [] ->
  (Z.of_nat (Datatypes.length l) < 2 ^ 63)%Z ->
  (forall i r, l !! i = Some r -> kv_version r = first + i) ->
  let t := if Nat.eqb (a_version a) 0 then first + Datatypes.length l - 1
           else a_version a in
  (t < first ->
     Undelete b a tr = (tr, inl (Failure "`%s' version: %d is destroyed"))) /\
  (first + Datatypes.length l - 1 < t -> (Z.of_nat (t - first) < 2 ^ 63)%Z ->
     Undelete b a tr = (tr, inl (Failure "version %d of `%s' does not yet exist"))) /\
  ((2 ^ 63 <= Z.of_nat (t - first) < 2 ^ 64)%Z ->
     Undelete b a tr = (tr, inl (Panic "index out of range"))) /\
  (forall r, r ∈ l -> kv_version r = t ->
     Undelete b a tr =
       if kv_destroyed r then (tr, inl (Failure "`%s' version: %d is destroyed"))
       else issue b (CUndelete (a_path a) [t]) tr).
Proof.
  intros Hk Hl Hne Hlen63 Hc t.
  destruct l as [|r0 l']; [contradiction|].
  assert (H0 : kv_version r0 = first) by (rewrite (Hc 0 r0 eq_refl); lia).
  destruct (last (r0 :: l')) as [rl|] eqn:Hlast.
  2:{ exfalso. assert (is_Some (last (r0 :: l'))) as [? Hs] by (apply last_is_Some; done).
      congruence. }
  assert (Hrl : kv_version rl = first + Datatypes.length (r0 :: l') - 1).
  { rewrite last_lookup in Hlast. rewrite (Hc _ _ Hlast). cbn [Datatypes.length]. lia. }
  assert (Hu : Undelete b a tr =
    if Nat.ltb t first then (tr, inl (Failure "`%s' version: %d is destroyed"))
    else if Z.leb (Z.of_nat (Datatypes.length (r0 :: l'))) (uintToInt (uintSub t first))
    then (tr, inl (Failure "version %d of `%s' does not yet exist"))
    else if Z.ltb (uintToInt (uintSub t first)) 0
    then (tr, inl (Panic "index out of range"))
    else match (r0 :: l') !! Z.to_nat (uintToInt (uintSub t first)) with
         | Some r => if kv_destroyed r then (tr, inl (Failure "`%s' version: %d is destroyed"))
                     else issue b (CUndelete (a_path a) [t]) tr
         | None => (tr, inl (Panic "index out of range"))
         end).
  { unfold Undelete. rewrite Hk. cbn [String.eqb negb].
    rewrite (Versions_ok _ _ _ Hl). unfold bindM, lastM, nthM, ret. cbv beta iota.
    rewrite Hlast. cbn [lookup list_lookup]. cbv beta iota. rewrite H0.
    subst t. destruct (Nat.eqb (a_version a) 0); [rewrite Hrl|];
      destruct (Nat.ltb _ first); [reflexivity| |reflexivity|];
      destruct (Z.leb _ _); try reflexivity;
      destruct (Z.ltb _ 0); try reflexivity;
      destruct ((r0 :: l') !! _) as [r|]; try reflexivity;
      unfold fail; destruct (kv_destroyed r); reflexivity. }
  rewrite Hu. split; [|split; [|split]].
  - intros Hlt. replace (Nat.ltb t first) with true by (symmetry; apply Nat.ltb_lt; lia).
    reflexivity.
  - intros Hgt H63. replace (Nat.ltb t first) with false by (symmetry; apply Nat.ltb_ge; lia).
    rewrite (uintToInt_uintSub_small t first) by lia.
    replace (Z.leb _ (Z.of_nat (t - first))) with true
      by (symmetry; apply Z.leb_le; cbn [Datatypes.length] in *; lia). reflexivity.
  - intros H63. replace (Nat.ltb t first) with false by (symmetry; apply Nat.ltb_ge; lia).
    rewrite (uintToInt_uintSub_large t first) by lia.
    replace (Z.leb _ (Z.of_nat (t - first) - 2 ^ 64)) with false
      by (symmetry; apply Z.leb_gt; lia).
    replace (Z.ltb (Z.of_nat (t - first) - 2 ^ 64) 0) with true
      by (symmetry; apply Z.ltb_lt; lia). reflexivity.
  - intros r Hin Hr. apply list_elem_of_lookup_1 in Hin as [i Hi].
    pose proof (Hc _ _ Hi) as Hci. pose proof (lookup_lt_Some _ _ _ Hi) as Hlen.
    replace (Nat.ltb t first) with false by (symmetry; apply Nat.ltb_ge; lia).
    rewrite (uintToInt_uintSub_small t first) by lia.
    replace (Z.leb _ (Z.of_nat (t - first))) with false
      by (symmetry; apply Z.leb_gt; lia).
    replace (Z.ltb (Z.of_nat (t - first)) 0) with false
      by (symmetry; apply Z.ltb_ge; lia).
    rewrite Nat2Z.id. replace (t - first) with i by lia. rewrite Hi. reflexivity.
Qed.

(** On [3:Alive, 4:Deleted, 5:Destroyed]: version 4 is undeleted, version 5
    and version 2 (below the retained window) are refused as destroyed, and
    version 9 does not yet exist. *)
Lemma Undelete_versions_witness :
  Undelete spec345 (mkAddr "secret/x" "" 4) [] =
    ([EvCall (CUndelete "secret/x" [4])], inr tt) /\
  Undelete spec345 (mkAddr "secret/x" "" 5) [] =
    ([], inl (Failure "`%s' version: %d is destroyed")) /\
  Undelete spec345 (mkAddr "secret/x" "" 2) [] =
    ([], inl (Failure "`%s' version: %d is destroyed")) /\
  Undelete spec345 (mkAddr "secret/x" "" 9) [] =
    ([], inl (Failure "version %d of `%s' does not yet exist")).
Proof.
  assert (Hne : [mkKVVersion 3 false false; mkKVVersion 4 true false;
                 mkKVVersion 5 false true] <> []) by discriminate.
  assert (Hlen : (Z.of_nat (Datatypes.length [mkKVVersion 3 false false;
                   mkKVVersion 4 true false; mkKVVersion 5 false true]) < 2 ^ 63)%Z)
    by (cbn; lia).
  pose proof (fun n => Undelete_versions spec345 (mkAddr "secret/x" "" n) _ 3 []
                eq_refl eq_refl Hne Hlen spec345_contiguous) as H.
  split; [|split; [|split]].
  - rewrite (proj2 (proj2 (proj2 (H 4))) (mkKVVersion 4 true false)).
    + reflexivity.
    + apply list_elem_of_In. cbn. tauto.
    + reflexivity.
  - rewrite (proj2 (proj2 (proj2 (H 5))) (mkKVVersion 5 false true)).
    + reflexivity.
    + apply list_elem_of_In. cbn. tauto.
    + reflexivity.
  - apply (proj1 (H 2)). cbn. lia.
  - apply (proj1 (proj2 (H 9))); cbn; lia.
Defined.

(** ** DeleteTree *)






(** ** The export handler's deduplication of its arguments *)

Lemma String_prefix_refl (s : string) : String.prefix s s = true.
Proof.
  induction s as [|c s IH]; [reflexivity|]. cbn.
  destruct (ascii_dec c c); [exact IH|contradiction].
Qed.

Lemma dedupFrom_shape (x : string) (l : list string) :
  exists t, dedupFrom x l = x :: t /\ sublist t l.
Proof.
  revert x. induction l as [|y rest IH]; intros x.
  - exists []. split; [reflexivity|constructor].
  - cbn [dedupFrom]. destruct (String.prefix (trimSlash x) (trimSlash y)).
    + destruct (IH x) as [t [Ht Hs]]. exists t. split; [exact Ht|].
      apply sublist_cons. exact Hs.
    + destruct (IH y) as [t [Ht Hs]]. exists (y :: t). rewrite Ht. split; [reflexivity|].
      apply sublist_skip. exact Hs.
Qed.

Lemma dedupFrom_covers (x : string) (l : list string) (p : string) :
  In p (x :: l) ->
  exists k, In k (dedupFrom x l) /\ String.prefix (trimSlash k) (trimSlash p) = true.
Proof.
  revert x. induction l as [|y rest IH]; intros x Hp.
  - destruct Hp as [<-|[]]. eexists. split; [left; reflexivity|apply String_prefix_refl].
  - cbn [dedupFrom]. destruct (String.prefix (trimSlash x) (trimSlash y)) eqn:Hxy.
    + destruct Hp as [<-|[<-|Hp]].
      * apply IH. left. reflexivity.
      * exists x. split; [|exact Hxy].
        destruct (dedupFrom_shape x rest) as [t [-> _]]. left. reflexivity.
      * apply IH. right. exact Hp.
    + destruct Hp as [<-|Hp].
      * eexists. split; [left; reflexivity|apply String_prefix_refl].
      * destruct (IH y Hp) as [k [Hk Hpk]]. exists k. split; [right; exact Hk|exact Hpk].
Qed.

Lemma dedupFrom_adjacent (x : string) (l : list string) (i : nat) (k1 k2 : string) :
  dedupFrom x l !! i = Some k1 -> dedupFrom x l !! S i = Some k2 ->
  String.prefix (trimSlash k1) (trimSlash k2) = false.
Proof.
  revert x i. induction l as [|y rest IH]; intros x i H1 H2.
  - destruct i; discriminate H2.
  - cbn [dedupFrom] in H1, H2.
    destruct (String.prefix (trimSlash x) (trimSlash y)) eqn:Hxy.
    + exact (IH x i H1 H2).
    + destruct i as [|j].
      * cbn in H1, H2. injection H1 as <-.
        destruct (dedupFrom_shape y rest) as [t [Ht _]]. rewrite Ht in H2.
        cbn in H2. injection H2 as <-. exact Hxy.
      * exact (IH y j H1 H2).
Qed.

(** X4: the [export] handler's deduplication keeps a subsequence of its
    arguments that starts with the first one; every argument has a kept
    path whose slash-trimmed form is a string prefix of its own (so it is
    covered by that path's walk when the prefix ends at a path segment);
    and no kept path's trimmed form is a string prefix of the next kept
    path's. *)
Theorem dedupPaths_spec (args : list string) :
  sublist (dedupPaths args) args /\
  head (dedupPaths args) = head args /\
  (forall p, In p args ->
     exists k, In k (dedupPaths args) /\ String.prefix (trimSlash k) (trimSlash p) = true) /\
  (forall i k1 k2, dedupPaths args !! i = Some k1 -> dedupPaths args !! S i = Some k2 ->
     String.prefix (trimSlash k1) (trimSlash k2) = false).
Proof.
  destruct args as [|x l].
  - cbn. split; [constructor|]. split; [reflexivity|]. split; [intros p []|].
    intros i k1 k2 H. destruct i; discriminate H.
  - unfold dedupPaths. destruct (dedupFrom_shape x l) as [t [Ht Hs]].
    split; [rewrite Ht; apply sublist_skip; exact Hs|].
    split; [rewrite Ht; reflexivity|].
    split; [apply dedupFrom_covers|apply dedupFrom_adjacent].
Qed.

(** The comparison is on strings, not on path segments: [secret/foobar]
    is dropped after [secret/foo], and leading or trailing slashes are
    ignored. *)
Lemma dedupPaths_string_prefix :
  dedupPaths ["secret/foo"; "/secret/foobar/"; "secret/foo/x"; "secret/z"] =
    ["secret/foo"; "secret/z"].
Proof. vm_compute. reflexivity. Qed.

(** ** The revert command *)




(** ** The any-version state check and [delete --all] *)

Lemma existsb_true_of {A} (f : A -> bool) (l : list A) (x : A) :
  x ∈ l -> f x = true -> existsb f l = true.
Proof.
  intros Hin Hf. apply existsb_exists. exists x. split; [|exact Hf].
  apply list_elem_of_In. exact Hin.
Qed.

Lemma existsb_false_of {A} (f : A -> bool) (l : list A) :
  (forall x, x ∈ l -> f x = false) -> existsb f l = false.
Proof.
  intros H. destruct (existsb f l) eqn:E; [|reflexivity].
  apply existsb_exists in E as [x [Hin Hf]].
  rewrite (H x (proj2 (list_elem_of_In _ _) Hin)) in Hf. discriminate.
Qed.

(** The state check with [AnyVersion] on a v2 mount, for either state. *)
Lemma verify_v2_any b a st l tr :
  kv_mount_version b (a_path a) = inr 2 -> kv_versions b (a_path a) = inr l ->
  verifySecretState b a (mkVerifyOpts true st) tr =
  (tr, if existsb (fun v => negb (kv_deleted v || kv_destroyed v)
                           || (negb (isAlive st) && negb (kv_destroyed v))) l
       then inr tt
       else if isAlive st then inl (SecretNotFound (NoLiving a))
       else inl (SecretNotFound (NoLivingOrDeleted a))).
Proof.
  intros Hm Hl. unfold verifySecretState. cbv zeta.
  rewrite bind_lift, Hm. cbv beta iota.
  rewrite (Versions_ok _ _ _ Hl). cbn [attempt ret bindM AnyVersion negb State].
  destruct (existsb _ l); [reflexivity|].
  destruct (isAlive st); reflexivity.
Qed.

(** X6: on a v2 mount, the state check with [AnyVersion] ignores the
    version the address names and records no event: requiring [Alive], it
    succeeds when some retained version is neither deleted nor destroyed and
    otherwise (also with no version at all) reports that there is no living
    version; requiring [AliveOrDeleted], it succeeds when some version is
    not destroyed and otherwise reports no living or deleted version. *)
Theorem verifySecretState_any_version (b : Backend) (a : addr) (l : list KVVersion)
  (tr : list event) :
  kv_mount_version b (a_path a) = inr 2 ->
  kv_versions b (a_path a) = inr l ->
  ((exists v, v ∈ l /\ kv_deleted v = false /\ kv_destroyed v = false) ->
     verifySecretState b a (mkVerifyOpts true verifyStateAlive) tr = (tr, inr tt)) /\
  ((forall v, v ∈ l -> kv_deleted v = true \/ kv_destroyed v = true) ->
     verifySecretState b a (mkVerifyOpts true verifyStateAlive) tr =
       (tr, inl (SecretNotFound (NoLiving a)))) /\
  ((exists v, v ∈ l /\ kv_destroyed v = false) ->
     verifySecretState b a (mkVerifyOpts true verifyStateAliveOrDeleted) tr =
       (tr, inr tt)) /\
  ((forall v, v ∈ l -> kv_destroyed v = true) ->
     verifySecretState b a (mkVerifyOpts true verifyStateAliveOrDeleted) tr =
       (tr, inl (SecretNotFound (NoLivingOrDeleted a)))).
Proof.
  intros Hm Hl.
  rewrite !(verify_v2_any b a _ l tr Hm Hl). cbn [isAlive negb andb].
  split; [|split; [|split]].
  - intros (v & Hin & Hd & Hx).
    rewrite (existsb_true_of _ _ v Hin); [reflexivity|].
    rewrite Hd, Hx. reflexivity.
  - intros H. rewrite existsb_false_of; [reflexivity|].
    intros v Hin. destruct (H v Hin) as [-> | ->]; cbn;
      [reflexivity | destruct (kv_deleted v); reflexivity].
  - intros (v & Hin & Hx).
    rewrite (existsb_true_of _ _ v Hin); [reflexivity|].
    rewrite Hx. destruct (kv_deleted v); reflexivity.
  - intros H. rewrite existsb_false_of; [reflexivity|].
    intros v Hin. rewrite (H v Hin). destruct (kv_deleted v); reflexivity.
Qed.

(** On [3:Alive, 4:Deleted, 5:Destroyed] the check requiring a living
    version passes (whatever version is named); on [4:Deleted, 5:Destroyed]
    only the check admitting deleted versions passes. *)
Lemma verifySecretState_any_version_witness :
  verifySecretState spec345 (mkAddr "secret/x" "" 5)
    (mkVerifyOpts true verifyStateAlive) [] = ([], inr tt) /\
  verifySecretState deletedDestroyed (mkAddr "secret/x" "" 0)
    (mkVerifyOpts true verifyStateAlive) [] =
    ([], inl (SecretNotFound (NoLiving (mkAddr "secret/x" "" 0)))) /\
  verifySecretState deletedDestroyed (mkAddr "secret/x" "" 0)
    (mkVerifyOpts true verifyStateAliveOrDeleted) [] = ([], inr tt).
Proof.
  split; [|split].
  - apply (proj1 (verifySecretState_any_version spec345 (mkAddr "secret/x" "" 5) _ []
                    eq_refl eq_refl)).
    exists (mkKVVersion 3 false false).
    split; [apply list_elem_of_In; cbn; tauto | split; reflexivity].
  - apply (proj1 (proj2 (verifySecretState_any_version deletedDestroyed
                           (mkAddr "secret/x" "" 0) _ [] eq_refl eq_refl))).
    intros v Hin. apply list_elem_of_In in Hin.
    destruct Hin as [<- | [<- | []]]; [left | right]; reflexivity.
  - apply (proj1 (proj2 (proj2 (verifySecretState_any_version deletedDestroyed
                           (mkAddr "secret/x" "" 0) _ [] eq_refl eq_refl)))).
    exists (mkKVVersion 4 true false).
    split; [apply list_elem_of_In; cbn; tauto | reflexivity].
Defined.

(** X7: [Delete --all] of a secret address with no key on a v2 mount whose
    retained versions are [l]: with destroy, it destroys the whole secret
    (metadata included) with one call when some version is not yet
    destroyed, and otherwise fails with no living or deleted version; without
    destroy, it soft-deletes every retained version number of [l] (deleted
    and destroyed ones included) with one call when some version is alive,
    and otherwise fails with no living version, issuing no call. *)
Theorem Delete_all_versions (b : Backend) (a : addr) (l : list KVVersion)
  (tr : list event) :
  a_key a = "" ->
  kv_mount_version b (a_path a) = inr 2 ->
  kv_versions b (a_path a) = inr l ->
  ((exists v, v ∈ l /\ kv_destroyed v = false) ->
     Delete b a (mkDeleteOpts true true) tr = issue b (CDestroyAll (a_path a)) tr) /\
  ((forall v, v ∈ l -> kv_destroyed v = true) ->
     Delete b a (mkDeleteOpts true true) tr =
       (tr, inl (SecretNotFound (NoLivingOrDeleted a)))) /\
  ((exists v, v ∈ l /\ kv_deleted v = false /\ kv_destroyed v = false) ->
     Delete b a (mkDeleteOpts false true) tr =
       issue b (CDelete (a_path a) (map kv_version l)) tr) /\
  ((forall v, v ∈ l -> kv_deleted v = true \/ kv_destroyed v = true) ->
     Delete b a (mkDeleteOpts false true) tr =
       (tr, inl (SecretNotFound (NoLiving a)))).
Proof.
  intros Hk Hm Hl.
  assert (Hc : forall tr', canSemanticallyDelete b a tr' = (tr', inr tt)).
  { intros tr'. unfold canSemanticallyDelete. rewrite Hk. reflexivity. }
  assert (Hp : negb (PathHasKey a) = true).
  { unfold PathHasKey. rewrite Hk. reflexivity. }
  unfold Delete, Delete_with. cbn [Destroy All].
  unfold bindM at 1 3 5 7.
  rewrite !(verify_v2_any b a _ l tr Hm Hl). cbn [isAlive negb andb orb].
  split; [|split; [|split]].
  - intros (v & Hin & Hx).
    rewrite (existsb_true_of _ _ v Hin); [|rewrite Hx; destruct (kv_deleted v); reflexivity].
    cbv beta iota. unfold bindM. rewrite Hc, Hp. reflexivity.
  - intros H. rewrite existsb_false_of; [reflexivity|].
    intros v Hin. rewrite (H v Hin). destruct (kv_deleted v); reflexivity.
  - intros (v & Hin & Hd & Hx).
    rewrite (existsb_true_of _ _ v Hin); [|rewrite Hd, Hx; reflexivity].
    cbv beta iota. unfold bindM. rewrite Hc, Hp.
    unfold deleteEntireSecret. cbn [andb negb].
    rewrite (Versions_ok _ _ _ Hl). reflexivity.
  - intros H. rewrite existsb_false_of; [reflexivity|].
    intros v Hin. destruct (H v Hin) as [-> | ->]; cbn;
      [reflexivity | destruct (kv_deleted v); reflexivity].
Qed.

(** On [3:Alive, 4:Deleted, 5:Destroyed], [delete -a -D] destroys the whole
    secret and [delete -a] soft-deletes versions 3, 4 and 5; on
    [4:Deleted, 5:Destroyed], [delete -a] fails with no call. *)
Lemma Delete_all_versions_witness :
  Delete spec345 (mkAddr "secret/x" "" 0) (mkDeleteOpts true true) [] =
    ([EvCall (CDestroyAll "secret/x")], inr tt) /\
  Delete spec345 (mkAddr "secret/x" "" 0) (mkDeleteOpts false true) [] =
    ([EvCall (CDelete "secret/x" [3; 4; 5])], inr tt) /\
  Delete deletedDestroyed (mkAddr "secret/x" "" 0) (mkDeleteOpts false true) [] =
    ([], inl (SecretNotFound (NoLiving (mkAddr "secret/x" "" 0)))).
Proof.
  split; [|split].
  - rewrite (proj1 (Delete_all_versions spec345 (mkAddr "secret/x" "" 0) _ []
                      eq_refl eq_refl eq_refl)).
    + reflexivity.
    + exists (mkKVVersion 3 false false).
      split; [apply list_elem_of_In; cbn; tauto | reflexivity].
  - rewrite (proj1 (proj2 (proj2 (Delete_all_versions spec345 (mkAddr "secret/x" "" 0) _ []
                                    eq_refl eq_refl eq_refl)))).
    + reflexivity.
    + exists (mkKVVersion 3 false false).
      split; [apply list_elem_of_In; cbn; tauto | split; reflexivity].
  - apply (proj2 (proj2 (proj2 (Delete_all_versions deletedDestroyed
                                  (mkAddr "secret/x" "" 0) _ [] eq_refl eq_refl eq_refl)))).
    intros v Hin. apply list_elem_of_In in Hin.
    destruct Hin as [<- | [<- | []]]; [left | right]; reflexivity.
Defined.

(** ** Export then import *)

(** The data of the envelope [v2Export] leaves in [toExport]: entries of
    paths it did not visit are untouched, and each visited secret (paths
    being distinct) is recorded with its first version number (0 for 1 or
    a shallow export) and its encoded versions. *)
Lemma v2ExportLoop_data (b : Backend) (shallow deleted : bool)
  (secrets : list SecretEntry) (ex : exportFormat) (t r : Exported) :
  NoDup (map se_path secrets) ->
  v2ExportLoop b shallow deleted secrets ex t = inr r ->
  (secrets = [] /\ r = t) \/
  exists ef, r = ExportVersioned [ef] /\
    (forall p, p ∉ map se_path secrets -> Data ef !! p = Data ex !! p) /\
    (forall s, s ∈ secrets -> exists v0 vs, se_versions s = v0 :: vs /\
       Data ef !! se_path s =
         Some (mkExportSecret
                 (if Nat.eqb (sv_number v0) 1 || shallow then 0 else sv_number v0)
                 (map (exportVersionOf deleted) (se_versions s)))).
Proof.
  revert ex t. induction secrets as [|s rest IH]; intros ex t Hnd Hr.
  - left. split; [reflexivity|]. cbn in Hr. congruence.
  - right. cbn [map] in Hnd. apply NoDup_cons in Hnd as [Hnin Hnd].
    cbn [v2ExportLoop] in Hr.
    destruct (se_versions s) as [|v0 vs] eqn:Hvs; [discriminate|].
    set (this := mkExportSecret
                   (if Nat.eqb (sv_number v0) 1 || shallow then 0 else sv_number v0)
                   (map (exportVersionOf deleted) (v0 :: vs))) in Hr.
    set (export1 := if Nat.ltb 1 (Datatypes.length (v0 :: vs)) then _ else ex) in Hr.
    assert (Hd1 : Data export1 = Data ex).
    { subst export1. destruct (Nat.ltb _ _); reflexivity. }
    set (export2 := mkExportFormat (ExportVersion export1)
                      (<[se_path s := this]> (Data export1))
                      (RequiresVersioning export1)) in Hr.
    assert (Hd2 : forall p, p <> se_path s -> Data export2 !! p = Data ex !! p).
    { intros p Hp. cbn. rewrite lookup_insert_ne by congruence. rewrite Hd1. reflexivity. }
    assert (Hs2 : Data export2 !! se_path s = Some this).
    { cbn. apply lookup_insert_eq. }
    destruct (IH export2 _ Hnd Hr) as [[-> ->] | (ef & -> & Hframe & Hrest)].
    + exists export2. split; [reflexivity|]. split.
      * intros p Hp. apply Hd2. intros ->. apply Hp. left.
      * intros s' Hin. apply list_elem_of_singleton in Hin as ->.
        exists v0, vs. split; [exact Hvs|]. rewrite Hvs. exact Hs2.
    + exists ef. split; [reflexivity|]. split.
      * intros p Hp. rewrite Hframe.
        -- apply Hd2. intros ->. apply Hp. left.
        -- intros Hin. apply Hp. right. exact Hin.
      * intros s' Hin. apply elem_of_cons in Hin as [-> | Hin].
        -- exists v0, vs. split; [exact Hvs|]. rewrite Hframe by exact Hnin.
           rewrite Hvs. exact Hs2.
        -- exact (Hrest s' Hin).
Qed.

(** The import loop over versions encoded with [--deleted] gives back the
    versions when their numbers run on from [n + i]. *)
Lemma uintAdd_small (x y : nat) :
  (N.of_nat (x + y) < 2 ^ 64)%N -> uintAdd x y = x + y.
Proof.
  intros H. unfold uintAdd. rewrite <- Nat2N.inj_add, N.mod_small by exact H.
  apply Nat2N.id.
Qed.

Lemma importLoop_exported (n i : nat) (vs : list SecretVersion) :
  (forall j v, vs !! j = Some v -> sv_number v = n + i + j) ->
  Forall (fun v => (N.of_nat (sv_number v) < 2 ^ 64)%N) vs ->
  importLoop (mkImportOpts false false false) n i (map (exportVersionOf true) vs) = vs.
Proof.
  revert i. induction vs as [|v rest IH]; intros i H Hb; [reflexivity|].
  apply Forall_cons in Hb as [Hbv Hb].
  assert (Hv : sv_number v = n + i) by (rewrite (H 0 v eq_refl); lia).
  assert (Hr : importLoop (mkImportOpts false false false) n (S i)
                 (map (exportVersionOf true) rest) = rest).
  { apply IH; [|exact Hb]. intros j w Hj. rewrite (H (S j) w Hj). lia. }
  destruct v as [num st d]. cbn in Hv, Hbv. subst num.
  cbn [map importLoop]. rewrite Hr, (uintAdd_small n i Hbv).
  destruct st; reflexivity.
Qed.

(** X8: a secret exported by the versioned export with [--deleted] (not
    shallow), among secrets of distinct paths, whose version numbers (Go's
    64-bit [uint]s, so below 2^64) run contiguously from some [n >= 1], is
    found in the export data under its
    path, and the default import rebuilds from that record exactly the
    same entry: path, version numbers, states and data. *)
Theorem export_import_roundtrip (b : Backend) (secrets : list SecretEntry)
  (ef : exportFormat) (e : SecretEntry) (n : nat) :
  v2Export b false true secrets = inr (ExportVersioned [ef]) ->
  NoDup (map se_path secrets) ->
  e ∈ secrets ->
  1 <= n ->
  (forall i v, se_versions e !! i = Some v -> sv_number v = n + i) ->
  Forall (fun v => (N.of_nat (sv_number v) < 2 ^ 64)%N) (se_versions e) ->
  exists es, Data ef !! se_path e = Some es /\
    importEntry (mkImportOpts false false false) (se_path e) es = inr e.
Proof.
  intros Hex Hnd Hin Hn Hc Hb. unfold v2Export in Hex.
  destruct (v2ExportLoop_data b false true secrets _ _ _ Hnd Hex)
    as [[-> _] | (ef' & Heq & _ & Hall)].
  { apply elem_of_nil in Hin as []. }
  injection Heq as ->.
  destruct (Hall e Hin) as (v0 & vs & Hvs & Hlook).
  eexists. split; [exact Hlook|].
  assert (Hv0 : sv_number v0 = n).
  { assert (H0 : se_versions e !! 0 = Some v0) by (rewrite Hvs; reflexivity).
    rewrite (Hc 0 v0 H0). lia. }
  unfold importEntry. cbn [es_FirstVersion es_Versions ImportShallow].
  rewrite orb_false_r, Hv0.
  replace (Nat.eqb (if Nat.eqb n 1 then 0 else n) 0) with (Nat.eqb n 1)
    by (destruct (Nat.eqb n 1) eqn:E; [reflexivity|];
        symmetry; apply Nat.eqb_neq; lia).
  replace (if Nat.eqb n 1 then 1 else if Nat.eqb n 1 then 0 else n) with n
    by (destruct (Nat.eqb n 1) eqn:E; [apply Nat.eqb_eq in E; lia | reflexivity]).
  rewrite importLoop_exported.
  - destruct e; reflexivity.
  - intros j v Hj. rewrite (Hc j v Hj). lia.
  - first [exact Hb | rewrite Hvs in Hb; exact Hb].
Qed.

(** Exporting [secret/x] (versions 3 to 5) and [secret/y] with [--deleted],
    then importing the record of [secret/x], gives [secret/x] back. *)
Lemma export_import_roundtrip_witness :
  exists ef, v2Export spec345 false true [historyX; historyY] = inr (ExportVersioned [ef]) /\
    exists es, Data ef !! "secret/x" = Some es /\
      importEntry (mkImportOpts false false false) "secret/x" es = inr historyX.
Proof.
  eexists. split; [vm_compute; reflexivity|].
  apply (export_import_roundtrip spec345 [historyX; historyY] _ historyX 3).
  - vm_compute. reflexivity.
  - apply (bool_decide_unpack _). vm_compute. reflexivity.
  - apply list_elem_of_In. cbn. tauto.
  - lia.
  - intros i v. destruct i as [|[|[|i]]]; cbn; intros H; inversion H; reflexivity.
  - apply (bool_decide_unpack _). vm_compute. reflexivity.
Defined.

(** ** The import of one exported record *)

Lemma importLoop_elem (o : ImportOpts) (first i : nat) (vs : list exportVersion)
  (sv : SecretVersion) :
  sv ∈ importLoop o first i vs <->
  exists j v, vs !! j = Some v /\
    ((sv = mkSecretVersion (uintAdd first (i + j)) SecretStateDestroyed (ev_Value v) /\
      ev_Destroyed v = true /\ IgnoreDestroyed o = false) \/
     (sv = mkSecretVersion (uintAdd first (i + j)) SecretStateDeleted (ev_Value v) /\
      ev_Destroyed v = false /\ ev_Deleted v = true /\ IgnoreDeleted o = false) \/
     (sv = mkSecretVersion (uintAdd first (i + j)) SecretStateAlive (ev_Value v) /\
      ev_Destroyed v = false /\ ev_Deleted v = false)).
Proof.
  revert i. induction vs as [|v rest IH]; intros i.
  - cbn. split.
    + intros H. apply elem_of_nil in H as [].
    + intros (j & w & Hj & _). discriminate Hj.
  - assert (Hstep : sv ∈ importLoop o first i (v :: rest) <->
      ((sv = mkSecretVersion (uintAdd first (i + 0)) SecretStateDestroyed (ev_Value v) /\
        ev_Destroyed v = true /\ IgnoreDestroyed o = false) \/
       (sv = mkSecretVersion (uintAdd first (i + 0)) SecretStateDeleted (ev_Value v) /\
        ev_Destroyed v = false /\ ev_Deleted v = true /\ IgnoreDeleted o = false) \/
       (sv = mkSecretVersion (uintAdd first (i + 0)) SecretStateAlive (ev_Value v) /\
        ev_Destroyed v = false /\ ev_Deleted v = false)) \/
      sv ∈ importLoop o first (S i) rest).
    { rewrite Nat.add_0_r. cbn [importLoop].
      destruct (ev_Destroyed v), (IgnoreDestroyed o), (ev_Deleted v), (IgnoreDeleted o);
        rewrite ?elem_of_cons; intuition congruence. }
    rewrite Hstep, IH. split.
    + intros [H | (j & w & Hj & H)].
      * exists 0, v. split; [reflexivity | exact H].
      * exists (S j), w. split; [exact Hj|].
        replace (i + S j) with (S i + j) by lia. exact H.
    + intros (j & w & Hj & H). destruct j as [|j].
      * left. injection Hj as <-. exact H.
      * right. exists j, w. split; [exact Hj|].
        replace (S i + j) with (i + S j) by lia. exact H.
Qed.

(** X9: the non-shallow import of an exported record succeeds and keeps,
    in the entry for [path], exactly one version per exported version that
    is not ignored: a destroyed one (unless destroyed versions are ignored)
    as destroyed, else a deleted one (unless deleted versions are ignored)
    as deleted, else as alive, each with its exported data and numbered by
    its position in the record added to the record's first version (1 when
    the record has none) as a 64-bit [uint], so modulo 2^64; ignored
    versions leave gaps. *)
Theorem importEntry_versions (o : ImportOpts) (path : string) (es : exportSecret) :
  ImportShallow o = false ->
  let first := if Nat.eqb (es_FirstVersion es) 0 then 1 else es_FirstVersion es in
  exists vs, importEntry o path es = inr (mkSecretEntry path vs) /\
  forall sv, sv ∈ vs <->
    exists j v, es_Versions es !! j = Some v /\
      ((sv = mkSecretVersion (uintAdd first j) SecretStateDestroyed (ev_Value v) /\
        ev_Destroyed v = true /\ IgnoreDestroyed o = false) \/
       (sv = mkSecretVersion (uintAdd first j) SecretStateDeleted (ev_Value v) /\
        ev_Destroyed v = false /\ ev_Deleted v = true /\ IgnoreDeleted o = false) \/
       (sv = mkSecretVersion (uintAdd first j) SecretStateAlive (ev_Value v) /\
        ev_Destroyed v = false /\ ev_Deleted v = false)).
Proof.
  intros Hs first. unfold importEntry. rewrite Hs. fold first.
  eexists. split; [reflexivity|].
  intros sv. rewrite importLoop_elem. reflexivity.
Qed.

(** Importing [alive; destroyed; deleted] with no first version and
    destroyed versions ignored keeps versions 1 and 3. *)
Lemma importEntry_versions_witness :
  importEntry (mkImportOpts false true false) "secret/x"
    (mkExportSecret 0 [mkExportVersion false false {[ "a" := "1" ]};
                       mkExportVersion false true {[ "a" := "2" ]};
                       mkExportVersion true false {[ "a" := "3" ]}]) =
    inr (mkSecretEntry "secret/x"
           [mkSecretVersion 1 SecretStateAlive {[ "a" := "1" ]};
            mkSecretVersion 3 SecretStateDeleted {[ "a" := "3" ]}]) /\
  exists vs, importEntry (mkImportOpts false true false) "secret/x"
    (mkExportSecret 0 [mkExportVersion false false {[ "a" := "1" ]};
                       mkExportVersion false true {[ "a" := "2" ]};
                       mkExportVersion true false {[ "a" := "3" ]}]) =
    inr (mkSecretEntry "secret/x" vs) /\
    mkSecretVersion 3 SecretStateDeleted {[ "a" := "3" ]} ∈ vs.
Proof.
  split; [vm_compute; reflexivity|].
  destruct (importEntry_versions (mkImportOpts false true false) "secret/x"
              (mkExportSecret 0 [mkExportVersion false false {[ "a" := "1" ]};
                                 mkExportVersion false true {[ "a" := "2" ]};
                                 mkExportVersion true false {[ "a" := "3" ]}]) eq_refl)
    as (vs & Hvs & Hmem).
  exists vs. split; [exact Hvs|].
  apply Hmem. exists 2, (mkExportVersion true false {[ "a" := "3" ]}).
  split; [reflexivity|]. right. left. repeat split.
Defined.

(** X10: the shallow import of an exported record (its first version a
    64-bit [uint]) with no version fails with a slice-bounds panic; otherwise it keeps at most one version: the
    record's last one, with its data, numbered with the record's first
    version (1 when the record has none) whatever its position, and always
    kept, as alive, when it is neither deleted nor destroyed. *)
Theorem importEntry_shallow (o : ImportOpts) (path : string) (es : exportSecret) :
  ImportShallow o = true ->
  (N.of_nat (es_FirstVersion es) < 2 ^ 64)%N ->
  let first := if Nat.eqb (es_FirstVersion es) 0 then 1 else es_FirstVersion es in
  (es_Versions es = [] ->
     importEntry o path es = inl (Panic "slice bounds out of range")) /\
  (forall v, last (es_Versions es) = Some v ->
     exists vs, importEntry o path es = inr (mkSecretEntry path vs) /\
       (vs = [] \/ exists st, vs = [mkSecretVersion first st (ev_Value v)]) /\
       (ev_Destroyed v = false -> ev_Deleted v = false ->
          vs = [mkSecretVersion first SecretStateAlive (ev_Value v)])).
Proof.
  intros Hs Hf first. unfold importEntry. rewrite Hs. fold first. split.
  - intros He. rewrite He. reflexivity.
  - intros v Hl. rewrite Hl. eexists. split; [reflexivity|].
    assert (Hfirst : uintAdd first 0 = first).
    { rewrite uintAdd_small; [apply Nat.add_0_r|]. subst first. rewrite Nat.add_0_r.
      destruct (Nat.eqb (es_FirstVersion es) 0); [vm_compute; reflexivity | exact Hf]. }
    cbn [importLoop]. rewrite Hfirst.
    destruct (ev_Destroyed v), (IgnoreDestroyed o), (ev_Deleted v), (IgnoreDeleted o);
      (split; [|intros; discriminate || reflexivity]);
      first [left; reflexivity | right; eexists; reflexivity].
Qed.

(** A shallow import of the record [first = 3; alive; deleted; alive]
    keeps the last version's data as version 3; an empty record panics. *)
Lemma importEntry_shallow_witness :
  importEntry (mkImportOpts true false false) "secret/x" (mkExportSecret 3 []) =
    inl (Panic "slice bounds out of range") /\
  exists vs, importEntry (mkImportOpts true false false) "secret/x"
    (mkExportSecret 3 [mkExportVersion false false {[ "a" := "1" ]};
                       mkExportVersion true false {[ "a" := "2" ]};
                       mkExportVersion false false {[ "a" := "3" ]}]) =
    inr (mkSecretEntry "secret/x" vs) /\
    vs = [mkSecretVersion 3 SecretStateAlive {[ "a" := "3" ]}].
Proof.
  assert (Hf : (N.of_nat 3 < 2 ^ 64)%N) by (vm_compute; reflexivity).
  split.
  - apply (proj1 (importEntry_shallow (mkImportOpts true false false) "secret/x"
                    (mkExportSecret 3 []) eq_refl Hf)). reflexivity.
  - destruct (proj2 (importEntry_shallow (mkImportOpts true false false) "secret/x"
                       (mkExportSecret 3 [mkExportVersion false false {[ "a" := "1" ]};
                                          mkExportVersion true false {[ "a" := "2" ]};
                                          mkExportVersion false false {[ "a" := "3" ]}])
                       eq_refl Hf) (mkExportVersion false false {[ "a" := "3" ]}) eq_refl)
      as (vs & Hvs & _ & Halive).
    exists vs. split; [exact Hvs|]. exact (Halive eq_refl eq_refl).
Defined.

(** ** Copying one key *)



Lemma snd_attempt_ro {A} (m : M A) : RO m -> snd (attempt m []) = inr (snd (m [])).
Proof. intros Hm. unfold attempt. rewrite (Hm []). reflexivity. Qed.




(** ** Tree copies: where each leaf goes *)










(** ** Move as copy then delete *)

(** X13: [Move] first checks that the source can be deleted: if not, it
    fails with the wrapped error and no call; otherwise it runs [Copy], and a
    failing copy ends the move with the copy's events and error, so the
    source is never deleted then; after a successful copy that is not a
    deep copy of deleted versions, the source is deleted with the default
    delete options and the move reports that delete's outcome. *)
Theorem Move_copy_then_delete (b : Backend) (src dst : addr) (opts : MoveCopyOpts)
  (tr : list event) :
  (forall e, snd (canSemanticallyDelete b src []) = inl e ->
     Move b src dst opts tr = (tr, inl (Wrapped "Can't move: Did you mean cp?" e))) /\
  (snd (canSemanticallyDelete b src []) = inr tt ->
     (forall tr' e, Copy b src dst opts tr = (tr', inl e) ->
        Move b src dst opts tr = (tr', inl e)) /\
     (forall tr', Copy b src dst opts tr = (tr', inr tt) ->
        Deep opts && DeletedVersions opts = false ->
        Move b src dst opts tr = Delete b src noDeleteOpts tr')).
Proof.
  assert (Hu : Move b src dst opts tr =
    match snd (canSemanticallyDelete b src []) with
    | inl e => (tr, inl (Wrapped "Can't move: Did you mean cp?" e))
    | inr _ =>
        (do_ Copy b src dst opts;
         if Deep opts && DeletedVersions opts then
           do _ <- attempt (issue b (CDestroyAll (EncodePath (a_path src) (a_key src)
                                                    (a_version src)))); ret tt
         else Delete b src noDeleteOpts) tr
    end).
  { unfold Move.
    rewrite (bind_ro (attempt (canSemanticallyDelete b src)))
      by (apply RO_attempt; apply RO_canSemanticallyDelete).
    rewrite (snd_attempt_ro _ (RO_canSemanticallyDelete b src)). cbv beta.
    destruct (snd (canSemanticallyDelete b src [])); reflexivity. }
  rewrite Hu. split.
  - intros e He. rewrite He. reflexivity.
  - intros Hc. rewrite Hc. split.
    + intros tr' e He. unfold bindM at 1. rewrite He. reflexivity.
    + intros tr' He Hd. unfold bindM at 1. rewrite He, Hd. reflexivity.
Qed.

(** Moving [secret/x] to [secret/z] replays it onto [secret/z], then
    soft-deletes the source's latest version; when the source tree cannot
    be fetched the move stops with that error; moving a key of a version
    of a secret with no version history is refused before any copy. *)
Lemma Move_copy_then_delete_witness :
  Move copyable (plain "secret/x") (plain "secret/z")
    (mkMoveCopyOpts false false false false) [] =
    ([EvCall (CReplay (mkSecretEntry "secret/x"
                         [mkSecretVersion 1 SecretStateAlive {[ "a" := "1" ]}])
                      "secret/z" false false);
      EvCall (CDelete "secret/x" [])], inr tt) /\
  Move srcAndDst (plain "secret/x") (plain "secret/z")
    (mkMoveCopyOpts false false false false) [] =
    ([], inl (ClientNotFound "secret/x")) /\
  Move srcAndDst (mkAddr "secret/q" "a" 1) (plain "secret/z")
    (mkMoveCopyOpts false false false false) [] =
    ([], inl (Wrapped "Can't move: Did you mean cp?"
                (SecretNotFound (NoSecretAt "secret/q")))).
Proof.
  split; [|split].
  - rewrite (proj2 (proj2 (Move_copy_then_delete copyable (plain "secret/x") (plain "secret/z")
                             (mkMoveCopyOpts false false false false) [])
                      ltac:(vm_compute; reflexivity))
               [EvCall (CReplay (mkSecretEntry "secret/x"
                                   [mkSecretVersion 1 SecretStateAlive {[ "a" := "1" ]}])
                                "secret/z" false false)]).
    + vm_compute. reflexivity.
    + vm_compute. reflexivity.
    + reflexivity.
  - apply (proj1 (proj2 (Move_copy_then_delete srcAndDst (plain "secret/x") (plain "secret/z")
                           (mkMoveCopyOpts false false false false) [])
                    ltac:(vm_compute; reflexivity))).
    vm_compute. reflexivity.
  - apply (proj1 (Move_copy_then_delete srcAndDst (mkAddr "secret/q" "a" 1) (plain "secret/z")
                    (mkMoveCopyOpts false false false false) [])).
    vm_compute. reflexivity.
Defined.

(** ** The undelete command *)



(** ** The copy command *)

(** X15: the [copy] command, once its argument checks pass (no destination
    version; no deep copy when a key is involved; no whole secret into a
    key), runs one [Copy] when not recursive and reports its outcome, except
    that with [--force] a not-found failure becomes a success (the copy's
    events are kept); when recursive without [--force] and the prompt is
    declined, it does nothing. *)
Theorem copyCmd_outcomes (b : Backend) (force deep skip quiet confirm : bool)
  (src dst : addr) (tr : list event) :
  PathHasVersion dst = false ->
  (PathHasKey src || PathHasKey dst = true -> deep = false) ->
  (PathHasKey dst = true -> PathHasKey src = true) ->
  let opts := mkMoveCopyOpts skip quiet deep deep in
  (forall tr', Copy b src dst opts tr = (tr', inr tt) ->
     copyCmd b false force deep skip quiet confirm src dst tr = (tr', inr tt)) /\
  (forall tr' e, Copy b src dst opts tr = (tr', inl e) -> IsNotFound e = true ->
     force = true -> copyCmd b false force deep skip quiet confirm src dst tr = (tr', inr tt)) /\
  (forall tr' e, Copy b src dst opts tr = (tr', inl e) -> IsNotFound e && force = false ->
     copyCmd b false force deep skip quiet confirm src dst tr = (tr', inl e)) /\
  (PathHasKey src = false -> PathHasKey dst = false -> PathHasVersion src = false ->
     force = false -> confirm = false ->
     copyCmd b true force deep skip quiet confirm src dst tr = (tr, inr tt)).
Proof.
  intros Hdv Hdeep Hkey opts.
  assert (Hg : forall tr0,
    (if PathHasKey src || PathHasKey dst then
       if deep then fail (A:=unit) (Failure "Cannot deep copy a specific key")
       else if negb (PathHasKey src) && PathHasKey dst
       then fail (Failure "Cannot move from entire secret into specific key")
       else ret tt
     else ret tt) tr0 = (tr0, inr tt)).
  { intros tr0. destruct (PathHasKey src || PathHasKey dst) eqn:E; [|reflexivity].
    rewrite (Hdeep eq_refl).
    destruct (PathHasKey dst) eqn:Ed; [rewrite (Hkey eq_refl)|];
      rewrite ?andb_false_r; reflexivity. }
  assert (Hc : forall tr' r, Copy b src dst opts tr = (tr', r) ->
    copyCmd b false force deep skip quiet confirm src dst tr =
    (tr', match r with
          | inl e => if IsNotFound e && force then inr tt else inl e
          | inr _ => inr tt
          end)).
  { intros tr' r Hr. unfold copyCmd. cbv zeta.
    unfold bindM at 1. rewrite Hg. cbv beta iota. rewrite Hdv. cbn [andb].
    unfold bindM, attempt. fold opts. rewrite Hr.
    destruct r as [e|[]]; [|reflexivity].
    destruct (IsNotFound e && force); reflexivity. }
  split; [|split; [|split]].
  - intros tr' Hr. rewrite (Hc _ _ Hr). reflexivity.
  - intros tr' e Hr Hn Hf. rewrite (Hc _ _ Hr), Hn, Hf. reflexivity.
  - intros tr' e Hr Hn. rewrite (Hc _ _ Hr), Hn. reflexivity.
  - intros Hs Hd Hvs Hf Hcf. unfold copyCmd. cbv zeta.
    unfold bindM at 1. rewrite Hg. cbv beta iota.
    rewrite Hdv, Hvs, Hs, Hd, Hf, Hcf. reflexivity.
Qed.

(** [copy -f secret/q secret/z] of a missing source succeeds with no call,
    [copy secret/q secret/z] fails, [copy secret/x secret/z] replays the
    source, and a declined recursive copy does nothing. *)
Lemma copyCmd_outcomes_witness :
  copyCmd srcAndDst false true false false false false (plain "secret/q") (plain "secret/z") []
    = ([], inr tt) /\
  copyCmd srcAndDst false false false false false false (plain "secret/q") (plain "secret/z") []
    = ([], inl (SecretNotFound (NoSecretAt "secret/q"))) /\
  copyCmd copyable false false false false false false (plain "secret/x") (plain "secret/z") []
    = ([EvCall (CReplay (mkSecretEntry "secret/x"
                           [mkSecretVersion 1 SecretStateAlive {[ "a" := "1" ]}])
                        "secret/z" false false)], inr tt) /\
  copyCmd srcAndDst true false false false false false (plain "secret/x") (plain "secret/z") []
    = ([], inr tt).
Proof.
  split; [|split; [|split]].
  - apply (proj1 (proj2 (copyCmd_outcomes srcAndDst true false false false false
                           (plain "secret/q") (plain "secret/z") [] eq_refl
                           ltac:(discriminate) ltac:(discriminate)))
             [] (SecretNotFound (NoSecretAt "secret/q"))).
    + vm_compute. reflexivity.
    + reflexivity.
    + reflexivity.
  - apply (proj1 (proj2 (proj2 (copyCmd_outcomes srcAndDst false false false false false
                                  (plain "secret/q") (plain "secret/z") [] eq_refl
                                  ltac:(discriminate) ltac:(discriminate))))
             [] (SecretNotFound (NoSecretAt "secret/q"))).
    + vm_compute. reflexivity.
    + reflexivity.
  - apply (proj1 (copyCmd_outcomes copyable false false false false false
                    (plain "secret/x") (plain "secret/z") [] eq_refl
                    ltac:(discriminate) ltac:(discriminate))).
    vm_compute. reflexivity.
  - apply (proj2 (proj2 (proj2 (copyCmd_outcomes srcAndDst false false false false false
                                  (plain "secret/x") (plain "secret/z") [] eq_refl
                                  ltac:(discriminate) ltac:(discriminate)))));
      reflexivity.
Defined.

(** ** The state check on a v1 mount *)

(** X16: on a v1 mount the state check ignores its options (no version
    state exists there) and records no event: it succeeds when the address
    reads; a read failing with an error other than not-found is reported as
    is; on a not-found read, it fails with the folder error when the
    address lists as a folder, with the listing's error when that error is
    not a not-found, and otherwise with the read's not-found error. *)
Theorem verifySecretState_v1 (b : Backend) (a : addr) (o : verifyOpts) (tr : list event) :
  kv_mount_version b (a_path a) = inr 1 ->
  (forall s, snd (Read b a []) = inr s -> verifySecretState b a o tr = (tr, inr tt)) /\
  (forall e, snd (Read b a []) = inl e -> IsNotFound e = false ->
     verifySecretState b a o tr = (tr, inl e)) /\
  (forall e, snd (Read b a []) = inl e -> IsNotFound e = true ->
     (forall l, snd (List b a []) = inr l ->
        verifySecretState b a o tr = (tr, inl (Failure "points to a folder, not a secret"))) /\
     (forall e', snd (List b a []) = inl e' -> IsNotFound e' = false ->
        verifySecretState b a o tr = (tr, inl e')) /\
     (forall e', snd (List b a []) = inl e' -> IsNotFound e' = true ->
        verifySecretState b a o tr = (tr, inl e))).
Proof.
  intros Hm.
  assert (Hu : verifySecretState b a o tr = verifySecretExists b a tr).
  { unfold verifySecretState. cbv zeta. rewrite bind_lift, Hm. reflexivity. }
  rewrite Hu. unfold verifySecretExists.
  rewrite (bind_ro (attempt (Read b a))) by (apply RO_attempt; apply RO_Read).
  rewrite (snd_attempt_ro _ (RO_Read b a)). cbv beta.
  split; [|split].
  - intros s Hs. rewrite Hs. reflexivity.
  - intros e He Hn. rewrite He. cbv iota. rewrite Hn. reflexivity.
  - intros e He Hn. rewrite He. cbv iota. rewrite Hn.
    rewrite (bind_ro (errIfFolder b a)) by apply RO_errIfFolder.
    unfold errIfFolder.
    rewrite (bind_ro (attempt (List b a))) by (apply RO_attempt; apply RO_List).
    rewrite (snd_attempt_ro _ (RO_List b a)). cbv beta.
    split; [|split].
    + intros l Hl. rewrite Hl. reflexivity.
    + intros e' Hl Hn'. rewrite Hl. cbv iota. rewrite Hn'. reflexivity.
    + intros e' Hl Hn'. rewrite Hl. cbv iota. rewrite Hn'. reflexivity.
Qed.

(** On a v1 mount: [secret/x] passes even when a deleted-aware check on
    all versions is asked, the folder [secret/dir] is refused as a folder,
    and the missing [secret/q] is reported as not found. *)
Lemma verifySecretState_v1_witness :
  verifySecretState v1Mount (plain "secret/x") (mkVerifyOpts true verifyStateAlive) []
    = ([], inr tt) /\
  verifySecretState v1Mount (plain "secret/dir") (mkVerifyOpts false verifyStateAlive) []
    = ([], inl (Failure "points to a folder, not a secret")) /\
  verifySecretState v1Mount (plain "secret/q") (mkVerifyOpts false verifyStateAlive) []
    = ([], inl (SecretNotFound (NoSecretAt "secret/q"))).
Proof.
  split; [|split].
  - apply (proj1 (verifySecretState_v1 v1Mount (plain "secret/x") _ [] eq_refl)
             (marshal <$> abData)).
    vm_compute. reflexivity.
  - destruct (proj2 (proj2 (verifySecretState_v1 v1Mount (plain "secret/dir")
                              (mkVerifyOpts false verifyStateAlive) [] eq_refl))
                (SecretNotFound (NoSecretAt "secret/dir")) eq_refl eq_refl)
      as (Hfolder & _ & _).
    apply (Hfolder ["x"]). reflexivity.
  - destruct (proj2 (proj2 (verifySecretState_v1 v1Mount (plain "secret/q")
                              (mkVerifyOpts false verifyStateAlive) [] eq_refl))
                (SecretNotFound (NoSecretAt "secret/q")) eq_refl eq_refl)
      as (_ & _ & Hmissing).
    apply (Hmissing (SecretNotFound (NoSecretAt "secret/q"))); reflexivity.
Defined.

(** ** The mounts an export marks as requiring versioning *)

Lemma v2ExportLoop_requires (b : Backend) (shallow deleted : bool)
  (secrets : list SecretEntry) (ex : exportFormat) (t r : Exported) :
  v2ExportLoop b shallow deleted secrets ex t = inr r ->
  (secrets = [] /\ r = t) \/
  exists ef, r = ExportVersioned [ef] /\
    forall m, RequiresVersioning ef !! m =
      if existsb (fun s => Nat.ltb 1 (Datatypes.length (se_versions s))
                           && String.eqb (mountOf b (se_path s)) m) secrets
      then Some true else RequiresVersioning ex !! m.
Proof.
  revert ex t. induction secrets as [|s rest IH]; intros ex t Hr.
  - left. split; [reflexivity|]. cbn in Hr. congruence.
  - right. cbn [v2ExportLoop] in Hr.
    destruct (se_versions s) as [|v0 vs] eqn:Hvs; [discriminate|].
    set (export1 := if Nat.ltb 1 (Datatypes.length (v0 :: vs)) then _ else ex) in Hr.
    set (export2 := mkExportFormat (ExportVersion export1) _ (RequiresVersioning export1)) in Hr.
    assert (H2 : forall m, RequiresVersioning export2 !! m =
      if Nat.ltb 1 (Datatypes.length (v0 :: vs)) && String.eqb (mountOf b (se_path s)) m
      then Some true else RequiresVersioning ex !! m).
    { intros m. subst export2 export1. cbn [RequiresVersioning].
      destruct (Nat.ltb 1 _); cbn [andb RequiresVersioning]; [|reflexivity].
      destruct (String.eqb (mountOf b (se_path s)) m) eqn:E.
      - apply String.eqb_eq in E. subst m. apply lookup_insert_eq.
      - apply String.eqb_neq in E. apply lookup_insert_ne. exact E. }
    cbn [existsb]. rewrite Hvs.
    destruct (IH export2 _ Hr) as [[-> ->] | (ef & -> & Hef)].
    + exists export2. split; [reflexivity|]. intros m. rewrite H2.
      cbn [existsb]. rewrite orb_false_r. reflexivity.
    + exists ef. split; [reflexivity|]. intros m. rewrite Hef, H2.
      destruct (existsb _ rest); [rewrite orb_true_r; reflexivity|].
      rewrite orb_false_r. reflexivity.
Qed.

(** X17: in a versioned export, the map of mounts requiring versioning
    holds [true] for the mount of every exported secret with more than one
    version (the mount of a path whose mount lookup fails being the empty
    string), and no other entry: a mount not marked is absent, never
    [false]. *)
Theorem v2Export_requires_versioning (b : Backend) (shallow deleted : bool)
  (secrets : list SecretEntry) (ef : exportFormat) :
  v2Export b shallow deleted secrets = inr (ExportVersioned [ef]) ->
  (forall s, s ∈ secrets -> 1 < Datatypes.length (se_versions s) ->
     RequiresVersioning ef !! mountOf b (se_path s) = Some true) /\
  (forall m v, RequiresVersioning ef !! m = Some v ->
     v = true /\ exists s, s ∈ secrets /\ 1 < Datatypes.length (se_versions s) /\
                           mountOf b (se_path s) = m).
Proof.
  intros Hex. unfold v2Export in Hex.
  destruct (v2ExportLoop_requires b shallow deleted secrets _ _ _ Hex)
    as [[_ Habs] | (ef' & Heq & Hrv)]; [discriminate|].
  injection Heq as ->. cbn [RequiresVersioning] in Hrv. split.
  - intros s Hin Hlen. rewrite Hrv.
    rewrite (existsb_true_of _ _ s Hin); [reflexivity|].
    apply andb_true_intro. split; [apply Nat.ltb_lt; exact Hlen | apply String.eqb_refl].
  - intros m v Hv. rewrite Hrv in Hv.
    destruct (existsb _ secrets) eqn:E; [|rewrite lookup_empty in Hv; discriminate].
    injection Hv as <-. split; [reflexivity|].
    apply existsb_exists in E as (s & Hin & Hs).
    apply andb_prop in Hs as [Hl Hm].
    exists s. split; [apply list_elem_of_In; exact Hin|].
    split; [apply Nat.ltb_lt; exact Hl | apply String.eqb_eq; exact Hm].
Qed.

(** ** The mount check of an import *)

Lemma importMountLoop_ok (b : Backend) (entries : list (string * bool)) :
  importMountLoop b entries = inr tt <->
  forall m, (m, true) ∈ entries -> kv_mount_version b m = inr 2.
Proof.
  induction entries as [|[mount nv] rest IH]; cbn [importMountLoop].
  - split; [|reflexivity]. intros _ m Hm. apply elem_of_nil in Hm. contradiction.
  - assert (Hin : forall m, (m, true) ∈ (mount, nv) :: rest <->
                            (nv = true /\ m = mount) \/ (m, true) ∈ rest).
    { intros m. rewrite elem_of_cons. split.
      - intros [Heq | H]; [injection Heq as -> ->; left; auto | right; exact H].
      - intros [[-> ->] | H]; [left; reflexivity | right; exact H]. }
    destruct nv.
    + destruct (kv_mount_version b mount) as [e | v] eqn:Hv.
      * split; [discriminate|]. intros H. specialize (H mount).
        rewrite Hin, Hv in H. discriminate (H (or_introl (conj eq_refl eq_refl))).
      * destruct (Nat.eqb v 2) eqn:E; cbn [negb].
        -- apply Nat.eqb_eq in E. subst v. rewrite IH. split.
           ++ intros H m Hm. apply Hin in Hm as [[_ ->] | Hm]; [exact Hv | exact (H m Hm)].
           ++ intros H m Hm. apply H, Hin. right. exact Hm.
        -- split; [discriminate|]. intros H. specialize (H mount).
           rewrite Hin, Hv in H. injection (H (or_introl (conj eq_refl eq_refl))).
           intros ->. discriminate.
    + rewrite IH. split.
      * intros H m Hm. apply Hin in Hm as [[Habs _] | Hm]; [discriminate | exact (H m Hm)].
      * intros H m Hm. apply H, Hin. right. exact Hm.
Qed.

Lemma importMountLoop_err (b : Backend) (entries : list (string * bool)) (e : err) :
  importMountLoop b entries = inl e ->
  exists m, (m, true) ∈ entries /\
    ((exists e', kv_mount_version b m = inl e' /\
                 e = Wrapped "Could not determine existing mount version" e') \/
     (exists v, kv_mount_version b m = inr v /\ v <> 2 /\
                e = Failure (mountNotVersionedMsg m))).
Proof.
  induction entries as [|[mount nv] rest IH]; cbn [importMountLoop]; [discriminate|].
  intros He. destruct nv.
  - destruct (kv_mount_version b mount) as [e' | v] eqn:Hv.
    + exists mount. split; [apply elem_of_cons; left; reflexivity|].
      left. exists e'. split; [exact Hv | congruence].
    + destruct (Nat.eqb v 2) eqn:E; cbn [negb] in He.
      * destruct (IH He) as (m & Hm & H). exists m.
        split; [apply elem_of_cons; right; exact Hm | exact H].
      * exists mount. split; [apply elem_of_cons; left; reflexivity|].
        right. exists v. split; [exact Hv|]. split; [apply Nat.eqb_neq; exact E | congruence].
  - destruct (IH He) as (m & Hm & H). exists m.
    split; [apply elem_of_cons; right; exact Hm | exact H].
Qed.

(** X18: whatever order Go iterates the map [RequiresVersioning] of the
    parsed record in, the non-shallow mount check of [v2Import] succeeds
    exactly when every mount marked [true] is a version 2 mount; when it
    fails, the error names a marked mount: the mount version lookup's error,
    wrapped, or the not-versioned message for a mount of another version.
    Mounts marked [false] are never looked up. *)
Theorem importMountCheck_outcome (b : Backend) (o : ImportOpts)
  (requires : gmap string bool) (entries : list (string * bool)) :
  ImportShallow o = false ->
  entries ≡ₚ map_to_list requires ->
  (importMountCheck b o entries = inr tt <->
   forall m, requires !! m = Some true -> kv_mount_version b m = inr 2) /\
  (forall e, importMountCheck b o entries = inl e ->
   exists m, requires !! m = Some true /\
    ((exists e', kv_mount_version b m = inl e' /\
                 e = Wrapped "Could not determine existing mount version" e') \/
     (exists v, kv_mount_version b m = inr v /\ v <> 2 /\
                e = Failure (mountNotVersionedMsg m)))).
Proof.
  intros Hs Hp. unfold importMountCheck. rewrite Hs. cbn [negb].
  assert (Hin : forall m, (m, true) ∈ entries <-> requires !! m = Some true).
  { intros m. rewrite Hp. apply elem_of_map_to_list. }
  split.
  - rewrite importMountLoop_ok. split.
    + intros H m Hm. apply H, Hin, Hm.
    + intros H m Hm. apply H, Hin, Hm.
  - intros e He. destruct (importMountLoop_err b entries e He) as (m & Hm & H).
    exists m. split; [apply Hin, Hm | exact H].
Qed.

(** On [mixedMounts], a record marking [kv2] and, as not needing it, [kv1]
    passes the check; marking [kv1] fails with the not-versioned message,
    and marking an unknown mount with the wrapped lookup error. *)
Lemma importMountCheck_outcome_witness :
  importMountCheck mixedMounts (mkImportOpts false false false)
    (map_to_list (<["kv2" := true]> (<["kv1" := false]> (∅ : gmap string bool)))) = inr tt /\
  (forall e, importMountCheck mixedMounts (mkImportOpts false false false)
     (map_to_list (<["kv1" := true]> (∅ : gmap string bool))) = inl e ->
   exists m, (<["kv1" := true]> (∅ : gmap string bool)) !! m = Some true /\
    ((exists e', kv_mount_version mixedMounts m = inl e' /\
                 e = Wrapped "Could not determine existing mount version" e') \/
     (exists v, kv_mount_version mixedMounts m = inr v /\ v <> 2 /\
                e = Failure (mountNotVersionedMsg m)))) /\
  importMountCheck mixedMounts (mkImportOpts false false false)
    (map_to_list (<["kv1" := true]> (∅ : gmap string bool))) =
    inl (Failure (mountNotVersionedMsg "kv1")) /\
  importMountCheck mixedMounts (mkImportOpts false false false)
    (map_to_list (<["vault" := true]> (∅ : gmap string bool))) =
    inl (Wrapped "Could not determine existing mount version" (Failure "permission denied")).
Proof.
  split; [|split; [|split]].
  - apply (importMountCheck_outcome mixedMounts (mkImportOpts false false false)
             (<["kv2" := true]> (<["kv1" := false]> ∅)) _ eq_refl (reflexivity _)).
    intros m Hm. destruct (String.eqb m "kv2") eqn:E.
    + apply String.eqb_eq in E. subst m. reflexivity.
    + apply String.eqb_neq in E. rewrite lookup_insert_ne in Hm by congruence.
      destruct (String.eqb m "kv1") eqn:E1.
      * apply String.eqb_eq in E1. subst m. rewrite lookup_insert_eq in Hm. discriminate.
      * apply String.eqb_neq in E1. rewrite lookup_insert_ne in Hm by congruence.
        rewrite lookup_empty in Hm. discriminate.
  - intros e He.
    apply (importMountCheck_outcome mixedMounts (mkImportOpts false false false)
             (<["kv1" := true]> ∅) _ eq_refl (reflexivity _)).
    exact He.
  - vm_compute. reflexivity.
  - vm_compute. reflexivity.
Defined.

(** Exporting [secret/x] (three versions) and [secret/y] (one) from
    [spec345]: the mount of [secret/x] is marked, and every mark is [true]
    and comes from [secret/x]. *)
Lemma v2Export_requires_versioning_witness :
  exists ef, v2Export spec345 false true [historyX; historyY] = inr (ExportVersioned [ef]) /\
    RequiresVersioning ef !! mountOf spec345 (se_path historyX) = Some true /\
    (forall m v, RequiresVersioning ef !! m = Some v ->
       v = true /\ exists s, s ∈ [historyX; historyY] /\
         1 < Datatypes.length (se_versions s) /\ mountOf spec345 (se_path s) = m).
Proof.
  eexists. assert (Hex : v2Export spec345 false true [historyX; historyY] =
                         inr (ExportVersioned [_])) by (vm_compute; reflexivity).
  split; [exact Hex|].
  destruct (v2Export_requires_versioning spec345 false true _ _ Hex) as [H1 H2].
  split; [|exact H2].
  apply H1; [apply list_elem_of_In; cbn; tauto | cbn; lia].
Defined.

(** ** The contents of a legacy export *)

Lemma v1ExportLoop_keeps (secrets : list SecretEntry) (acc m : gmap string secret)
  (p : string) (x : secret) :
  v1ExportLoop secrets acc = inr m ->
  acc !! p = Some x -> p ∉ Paths secrets -> m !! p = Some x.
Proof.
  revert acc. induction secrets as [|s rest IH]; intros acc Hm Hp Hnot.
  - cbn in Hm. congruence.
  - cbn [v1ExportLoop] in Hm. destruct (se_versions s) as [|v0 vs]; [discriminate|].
    apply (IH _ Hm).
    + rewrite lookup_insert_ne; [exact Hp|].
      intros Heq. apply Hnot. rewrite <- Heq. apply elem_of_cons. left. reflexivity.
    + intros Hin. apply Hnot. apply elem_of_cons. right. exact Hin.
Qed.

Lemma v1ExportLoop_data (secrets : list SecretEntry) (acc m : gmap string secret) :
  v1ExportLoop secrets acc = inr m ->
  NoDup (Paths secrets) ->
  (forall s, s ∈ secrets -> exists v vs, se_versions s = v :: vs /\
                                         m !! se_path s = Some (sv_data v)) /\
  (forall p x, m !! p = Some x -> acc !! p = Some x \/ p ∈ Paths secrets).
Proof.
  revert acc. induction secrets as [|s rest IH]; intros acc Hm Hnd.
  - cbn in Hm. injection Hm as <-. split.
    + intros s Hs. apply elem_of_nil in Hs. contradiction.
    + intros p x Hp. left. exact Hp.
  - cbn [v1ExportLoop] in Hm.
    destruct (se_versions s) as [|v0 vs] eqn:Hvs; [discriminate|].
    cbn [Paths map] in Hnd. apply NoDup_cons in Hnd as [Hnotin Hnd].
    destruct (IH _ Hm Hnd) as [Hin Hdom]. split.
    + intros s' Hs'. apply elem_of_cons in Hs' as [-> | Hs']; [|exact (Hin s' Hs')].
      exists v0, vs. split; [exact Hvs|].
      apply (v1ExportLoop_keeps rest _ _ _ _ Hm); [apply lookup_insert_eq | exact Hnotin].
    + intros p x Hp. destruct (Hdom p x Hp) as [Hacc | Hpin].
      * destruct (String.eq_dec p (se_path s)) as [-> | Hne].
        -- right. apply elem_of_cons. left. reflexivity.
        -- left. rewrite lookup_insert_ne in Hacc by congruence. exact Hacc.
      * right. apply elem_of_cons. right. exact Hpin.
Qed.

(** X19: when the export handler settles on the legacy format for secrets
    with distinct paths, every secret has exactly one version and the flat
    map holds, at each secret's path, that version's data; it holds no
    other path. *)
Theorem Export_legacy_data (b : Backend) (shallow deleted : bool)
  (secrets : list SecretEntry) (m : gmap string secret) :
  Export b shallow deleted secrets = inr (ExportLegacy m) ->
  NoDup (Paths secrets) ->
  (forall s, s ∈ secrets -> exists v, se_versions s = [v] /\
                                      m !! se_path s = Some (sv_data v)) /\
  (forall p x, m !! p = Some x -> p ∈ Paths secrets).
Proof.
  intros Hex Hnd. unfold Export in Hex.
  destruct (existsb _ secrets) eqn:Hmust.
  - unfold v2Export in Hex.
    destruct (v2ExportLoop_requires b shallow deleted secrets _ _ _ Hex)
      as [[_ Habs] | (ef & Habs & _)]; discriminate.
  - unfold v1Export in Hex.
    destruct (v1ExportLoop secrets ∅) as [e|m'] eqn:Hloop; [discriminate|].
    injection Hex as <-.
    destruct (v1ExportLoop_data secrets ∅ m' Hloop Hnd) as [Hin Hdom]. split.
    + intros s Hs. destruct (Hin s Hs) as (v & vs & Hvs & Hv).
      exists v. split; [|exact Hv]. rewrite Hvs.
      destruct vs as [|v1 vs]; [reflexivity|]. exfalso.
      rewrite (existsb_true_of _ _ s Hs) in Hmust; [discriminate|].
      rewrite Hvs. apply Nat.ltb_lt. cbn. lia.
    + intros p x Hp. destruct (Hdom p x Hp) as [Habs | Hpin]; [|exact Hpin].
      rewrite lookup_empty in Habs. discriminate.
Qed.

(** Exporting the single-version [secret/y] and a one-version [secret/z]
    in the legacy format. *)
Lemma Export_legacy_data_witness :
  exists m, Export spec345 false false
    [historyY; mkSecretEntry "secret/z" [sv 7 SecretStateAlive]] = inr (ExportLegacy m) /\
  (forall s, s ∈ [historyY; mkSecretEntry "secret/z" [sv 7 SecretStateAlive]] ->
     exists v, se_versions s = [v] /\ m !! se_path s = Some (sv_data v)) /\
  (forall p x, m !! p = Some x ->
     p ∈ Paths [historyY; mkSecretEntry "secret/z" [sv 7 SecretStateAlive]]).
Proof.
  eexists.
  assert (Hex : Export spec345 false false
    [historyY; mkSecretEntry "secret/z" [sv 7 SecretStateAlive]] =
    inr (ExportLegacy _)) by (vm_compute; reflexivity).
  split; [exact Hex|].
  apply (Export_legacy_data spec345 false false _ _ Hex).
  apply (bool_decide_unpack _). vm_compute. reflexivity.
Defined.
